(** * pyarb: the AWG615 waveform converter

    A shallow embedding of [pyarb.py] and the properties of its waveform
    codec ([WFMFile]), its text reader ([PulseTxtFile]) and its conversion
    loop ([Converter.convert]).

    The program is Python 2: a [str] is a sequence of bytes, modelled here as
    [list ascii]; a file object is the sequence of bytes still to be read (for
    a reader) or the bytes written so far (for a writer); a Python [float] is
    an IEEE-754 binary64 value, modelled by [spec_float]; an exception is a
    [Raise] result. Files are read as on a POSIX system, where text mode
    leaves line ends as they are. *)

From Stdlib Require Import ZArith Ascii String List Bool Lia.
From Stdlib Require Import Floats.SpecFloat.
Import ListNotations.
Local Open Scope Z_scope.

(** ** Results of Python computations *)

Inductive exn : Set :=
| ValueError | IndexError | StructError | OverflowError | IOError
| MemoryError | OSError.

(** [OutOfFuel] is not a Python outcome: it is what a bounded loop of the
    model returns when its bound is exhausted. [WFMFile.read_data] is shown
    never to produce it. *)
Inductive result (A : Type) : Type :=
| Ok (a : A)
| Raise (e : exn)
| OutOfFuel.
Arguments Ok {A} a.
Arguments Raise {A} e.
Arguments OutOfFuel {A}.

Definition bind {A B} (r : result A) (k : A -> result B) : result B :=
  match r with
  | Ok a => k a
  | Raise e => Raise e
  | OutOfFuel => OutOfFuel
  end.

Definition is_ok {A} (r : result A) : bool :=
  match r with Ok _ => true | _ => false end.

(** ** Python built-ins used by the program *)
Module Py.

Definition bytes := list ascii.

Definition lit (s : string) : bytes := list_ascii_of_string s.

Definition ord (c : ascii) : Z := Z.of_N (N_of_ascii c).
Definition chr (z : Z) : ascii := ascii_of_N (Z.to_N (z mod 256)).

Definition CR : ascii := Eval cbv in chr 13.
Definition LF : ascii := Eval cbv in chr 10.

(** [str.isspace] on a byte: tab, LF, VT, FF, CR and space. *)
Definition is_space (c : ascii) : bool :=
  ((9 <=? ord c) && (ord c <=? 13)) || (ord c =? 32).

Definition is_digit (c : ascii) : bool := (48 <=? ord c) && (ord c <=? 57).

Definition digit_char (d : Z) : ascii := chr (48 + d).
Definition digit_val (c : ascii) : Z := ord c - 48.

(** [str(n)] for an integer: decimal digits, most significant first, a
    leading minus sign for a negative number. *)
Fixpoint digits_aux (fuel : nat) (n : Z) (acc : bytes) : bytes :=
  let acc' := digit_char (n mod 10) :: acc in
  match fuel with
  | O => acc'
  | S f => if n <? 10 then acc' else digits_aux f (n / 10) acc'
  end.

Definition str_nonneg (n : Z) : bytes := digits_aux (Z.to_nat (Z.log2 n)) n [].

Definition str_int (n : Z) : bytes :=
  if n <? 0 then "-"%char :: str_nonneg (- n) else str_nonneg n.

(** [len(s)] as a Python integer. *)
Definition len {A} (l : list A) : Z := Z.of_nat (length l).

(** [s.strip()], [s.split()], [s.split(c)], [s[1:]], [l[1]]. *)
Fixpoint lstrip (s : bytes) : bytes :=
  match s with
  | c :: s' => if is_space c then lstrip s' else s
  | [] => []
  end.

Definition strip (s : bytes) : bytes := rev (lstrip (rev (lstrip s))).

Fixpoint split_go (s : bytes) (cur : bytes) : list bytes :=
  match s with
  | [] => match cur with [] => [] | _ => [rev cur] end
  | c :: s' =>
      if is_space c
      then match cur with [] => split_go s' [] | _ => rev cur :: split_go s' [] end
      else split_go s' (c :: cur)
  end.

Definition split (s : bytes) : list bytes := split_go s [].

Fixpoint split_on_go (sep : ascii) (s : bytes) (cur : bytes) : list bytes :=
  match s with
  | [] => [rev cur]
  | c :: s' =>
      if Ascii.eqb c sep then rev cur :: split_on_go sep s' []
      else split_on_go sep s' (c :: cur)
  end.

Definition split_on (sep : ascii) (s : bytes) : list bytes := split_on_go sep s [].

Definition item {A} (l : list A) (i : nat) : result A :=
  match nth_error l i with
  | Some x => Ok x
  | None => Raise IndexError
  end.

(** [int(s)]: surrounding whitespace is dropped, one sign is allowed, the
    rest must be a non-empty run of decimal digits; anything else is a
    [ValueError]. *)
Fixpoint parse_digits (s : bytes) (acc : Z) : option Z :=
  match s with
  | [] => Some acc
  | c :: s' => if is_digit c then parse_digits s' (10 * acc + digit_val c) else None
  end.

Definition parse_nat (s : bytes) : option Z :=
  match s with
  | [] => None
  | _ => parse_digits s 0
  end.

Definition split_sign (s : bytes) : bool * bytes :=
  match s with
  | c :: s' =>
      if Ascii.eqb c "-" then (true, s')
      else if Ascii.eqb c "+" then (false, s')
      else (false, s)
  | [] => (false, [])
  end.

Definition int (s : bytes) : result Z :=
  let (neg, d) := split_sign (strip s) in
  match parse_nat d with
  | Some n => Ok (if neg then - n else n)
  | None => Raise ValueError
  end.

(** *** Floating point

    A Python [float] is a binary64 value: [spec_float] with precision 53 and
    [emax = 1024]. A finite value [S754_finite s m e] denotes
    [(-1)^s * m * 2^e]. *)
Definition float := spec_float.

Definition b64 (s : bool) (m e : Z) : float :=
  binary_normalize 53 1024 (cond_Zopp s m) e s.

(** [round(n / d)] to the nearest integer, ties to even, for [0 <= n], [0 < d]. *)
Definition round_half_even (n d : Z) : Z :=
  let q := n / d in
  match 2 * (n mod d) ?= d with
  | Lt => q
  | Gt => q + 1
  | Eq => if Z.even q then q else q + 1
  end.

(** The value [m10 * 10^e10], correctly rounded to binary64. *)
Definition dec_to_float (s : bool) (m10 e10 : Z) : float :=
  if m10 =? 0 then S754_zero s
  else if 0 <=? e10 then b64 s (m10 * 10 ^ e10) 0
  else
    let d := 10 ^ (- e10) in
    let sh := Z.max 0 (Z.log2 d - Z.log2 m10 + 56) in
    let n := m10 * 2 ^ sh in
    let sticky := if n mod d =? 0 then 0 else 1 in
    b64 s (2 * (n / d) + sticky) (- sh - 1).

Fixpoint take_digits (s : bytes) : bytes * bytes :=
  match s with
  | c :: s' =>
      if is_digit c then let (d, r) := take_digits s' in (c :: d, r) else ([], s)
  | [] => ([], [])
  end.

Definition lower (c : ascii) : ascii :=
  if (65 <=? ord c) && (ord c <=? 90) then chr (ord c + 32) else c.

Definition bytes_eqb (a b : bytes) : bool :=
  String.eqb (string_of_list_ascii a) (string_of_list_ascii b).

Definition parse_exponent (s : bytes) : option Z :=
  match s with
  | [] => Some 0
  | c :: s' =>
      if Ascii.eqb (lower c) "e" then
        let (neg, d) := split_sign s' in
        match parse_nat d with
        | Some n => Some (if neg then - n else n)
        | None => None
        end
      else None
  end.

(** [float(s)]: surrounding whitespace is dropped; the rest is a signed
    decimal literal with an optional fraction and exponent, or one of
    [inf], [infinity], [nan] in any case. *)
Definition float_of_str (s : bytes) : result float :=
  let (neg, t) := split_sign (strip s) in
  let w := map lower t in
  if bytes_eqb w (lit "inf") || bytes_eqb w (lit "infinity") then Ok (S754_infinity neg)
  else if bytes_eqb w (lit "nan") then Ok S754_nan
  else
    let (ip, r1) := take_digits t in
    let (fp, r2) :=
      match r1 with
      | c :: r => if Ascii.eqb c "." then take_digits r else ([], r1)
      | [] => ([], [])
      end in
    match parse_nat (ip ++ fp), parse_exponent r2 with
    | Some m10, Some ex => Ok (dec_to_float neg m10 (ex - len fp))
    | _, _ => Raise ValueError
    end.

(** ['{0:0.10e}'.format(x)]: one digit, a point, ten digits, [e], the sign
    of the decimal exponent and at least two exponent digits; the eleven
    significant digits are those of [x] correctly rounded. *)
Fixpoint scale_up (fuel : nat) (num den k : Z) : Z * Z :=
  match fuel with
  | O => (num, k)
  | S f => if num <? den then scale_up f (10 * num) den (k - 1) else (num, k)
  end.

Fixpoint scale_down (fuel : nat) (num den k : Z) : Z * Z :=
  match fuel with
  | O => (den, k)
  | S f => if 10 * den <=? num then scale_down f num (10 * den) (k + 1) else (den, k)
  end.

(** [sci_digits m e = (q, k)]: [q] has eleven digits and [q * 10^(k-10)] is
    [m * 2^e] rounded to eleven significant digits. *)
Definition sci_digits (m e : Z) : Z * Z :=
  let num0 := m * 2 ^ Z.max e 0 in
  let den0 := 2 ^ Z.max (- e) 0 in
  let (num, k1) := scale_up (Z.to_nat (Z.log2 den0 + 1)) num0 den0 0 in
  let (den, k) := scale_down (Z.to_nat (Z.log2 num + 1)) num den0 k1 in
  let q := round_half_even (num * 10 ^ 10) den in
  if q =? 10 ^ 11 then (10 ^ 10, k + 1) else (q, k).

Fixpoint fixed_digits (w : nat) (n : Z) : bytes :=
  match w with
  | O => []
  | S w' => fixed_digits w' (n / 10) ++ [digit_char (n mod 10)]
  end.

Definition zfill2 (n : Z) : bytes :=
  if n <? 10 then "0"%char :: str_nonneg n else str_nonneg n.

Definition sign_str (s : bool) : bytes := if s then ["-"%char] else [].

Definition render_sci (qk : Z * Z) : bytes :=
  let (q, k) := qk in
  str_nonneg (q / 10 ^ 10) ++ "."%char :: fixed_digits 10 (q mod 10 ^ 10)
    ++ "e"%char :: (if k <? 0 then "-"%char else "+"%char) :: zfill2 (Z.abs k).

Definition format_e10 (x : float) : bytes :=
  match x with
  | S754_nan => lit "nan"
  | S754_infinity s => sign_str s ++ lit "inf"
  | S754_zero s => sign_str s ++ lit "0.0000000000e+00"
  | S754_finite s m e => sign_str s ++ render_sci (sci_digits (Zpos m) e)
  end.

(** *** The [struct] module: formats ['<f'] and ['<fb'] *)

(** The C cast [(float) x] followed by a reinterpretation of the binary32
    value as a 32-bit pattern. A finite [x] whose rounding overflows raises
    [OverflowError], as [struct.pack] does. *)
Definition sign_bit (s : bool) : Z := if s then 2 ^ 31 else 0.

Definition float_to_bits32 (x : float) : result Z :=
  match x with
  | S754_zero s => Ok (sign_bit s)
  | S754_infinity s => Ok (sign_bit s + 255 * 2 ^ 23)
  | S754_nan => Ok (255 * 2 ^ 23 + 2 ^ 22)
  | S754_finite s m e =>
      match binary_normalize 24 128 (cond_Zopp s (Zpos m)) e s with
      | S754_zero s' => Ok (sign_bit s')
      | S754_finite s' m' e' =>
          Ok (sign_bit s'
              + (if 2 ^ 23 <=? Zpos m'
                 then ((e' + 150) mod 256) * 2 ^ 23 + Zpos m' mod 2 ^ 23
                 else Zpos m' mod 2 ^ 23))
      | _ => Raise OverflowError
      end
  end.

(** A 32-bit pattern read as a binary32 value and widened to binary64. *)
Definition bits32_to_float (w : Z) : float :=
  let s := Z.testbit w 31 in
  let ex := (w / 2 ^ 23) mod 256 in
  let fr := w mod 2 ^ 23 in
  if ex =? 255 then (if fr =? 0 then S754_infinity s else S754_nan)
  else if ex =? 0 then (if fr =? 0 then S754_zero s else b64 s fr (- 149))
  else b64 s (2 ^ 23 + fr) (ex - 150).

(** Little-endian bytes of a word, and back. *)
Fixpoint le_bytes (n : nat) (w : Z) : bytes :=
  match n with
  | O => []
  | S n' => chr w :: le_bytes n' (w / 256)
  end.

Fixpoint le_word (b : bytes) : Z :=
  match b with
  | [] => 0
  | c :: b' => ord c + 256 * le_word b'
  end.

(** [struct.pack('<fb', x, mk)]: [mk] is a signed char. *)
Definition pack_fb (x : float) (mk : Z) : result bytes :=
  bind (float_to_bits32 x) (fun w =>
  if (-128 <=? mk) && (mk <=? 127) then Ok (le_bytes 4 w ++ [chr mk])
  else Raise StructError).

(** [struct.unpack('<f', b)[0]]: [b] must hold exactly four bytes. *)
Definition unpack_f (b : bytes) : result float :=
  if (length b =? 4)%nat then Ok (bits32_to_float (le_word b))
  else Raise StructError.

(** *** [numpy.fromstring(s, dtype=numpy.double, count=n, sep='\r\n')]

    numpy reads one number after the other with the C function [strtod],
    which takes the longest text at the start of a string that is a number:
    white space, a sign, then [nan] (with an optional part in brackets),
    [inf] or [infinity] in any case, or decimal digits with an optional
    fraction and an optional exponent. [strtod t] is the number and the text
    after it, or [None] when [t] starts with no number. *)
Fixpoint drop_while (f : ascii -> bool) (s : bytes) : bytes :=
  match s with
  | c :: s' => if f c then drop_while f s' else s
  | [] => []
  end.

Definition is_alnum_ (c : ascii) : bool :=
  is_digit c || ((97 <=? ord (lower c)) && (ord (lower c) <=? 122)) || Ascii.eqb c "_".

Definition nan_payload (s : bytes) : bytes :=
  match s with
  | c :: r =>
      if Ascii.eqb c "(" then
        match drop_while is_alnum_ r with
        | d :: r' => if Ascii.eqb d ")" then r' else d :: r'
        | [] => []
        end
      else s
  | [] => []
  end.

(** An exponent is taken only when it has a digit. *)
Definition exponent_prefix (s : bytes) : Z * bytes :=
  match s with
  | c :: s' =>
      if Ascii.eqb (lower c) "e" then
        let (neg, d) := split_sign s' in
        let (ed, r) := take_digits d in
        match parse_nat ed with
        | Some n => (if neg then - n else n, r)
        | None => (0, s)
        end
      else (0, s)
  | [] => (0, [])
  end.

Definition strtod (t : bytes) : option (float * bytes) :=
  let (neg, p) := split_sign (lstrip t) in
  if bytes_eqb (map lower (firstn 3 p)) (lit "nan") then
    Some (S754_nan, nan_payload (skipn 3 p))
  else if bytes_eqb (map lower (firstn 3 p)) (lit "inf") then
    let r := skipn 3 p in
    Some (S754_infinity neg,
          if bytes_eqb (map lower (firstn 5 r)) (lit "inity") then skipn 5 r else r)
  else
    let (ip, r1) := take_digits p in
    let (fp, r2) :=
      match r1 with
      | c :: r => if Ascii.eqb c "." then take_digits r else ([], r1)
      | [] => ([], [])
      end in
    match parse_nat (ip ++ fp) with
    | Some m10 =>
        let (ex, r3) := exponent_prefix r2 in
        Some (dec_to_float neg m10 (ex - len fp), r3)
    | None => None
    end.

(** The separator [\r\n] is white space only, and numpy takes such a
    separator for any run of white space, of one character or more. The
    numbers of [s] are therefore read word by word: a word that is a number
    is stored and the next word is read; a word that starts with a number is
    stored as far as the number goes, and the reading stops there, the rest
    of the word being no separator; a word that starts with no number stops
    the reading with nothing stored. *)
Fixpoint parse_floats (toks : list bytes) : list float :=
  match toks with
  | [] => []
  | t :: toks' =>
      match strtod t with
      | Some (x, []) => x :: parse_floats toks'
      | Some (x, _ :: _) => [x]
      | None => []
      end
  end.

(** The memory that numpy finds for an array: [room] is the largest number
    of slots for a double that it can allocate, and [slot i] is what slot
    [i] of a new array holds before it is filled. The count of a text is a
    number read from the file, so the size of the array is not bounded by the
    size of the input. *)
Record memory : Type := mk_memory {
  room : Z;
  slot : nat -> float
}.

(** The largest [Py_ssize_t], and the largest count of doubles whose size in
    bytes is a [Py_ssize_t], on a 64-bit machine. *)
Definition SSIZE_MAX : Z := 9223372036854775807.
Definition MAX_DOUBLES : Z := 1152921504606846975.

(** [count] is converted to a [Py_ssize_t], which raises [OverflowError]
    outside its range. For [0 <= count] numpy allocates an array of [count]
    slots before it reads: [ValueError] when the array is too big for any
    memory, [MemoryError] when there is no room for it. It then reads at most
    [count] numbers and returns the array as it is, raising nothing, when
    fewer are found: the slots it has not filled keep what the new memory
    held. For [count < 0] all numbers are read, into an array that grows by
    4096 slots at a time and is cut to the numbers found at the end. *)
Definition np_fromstring (fresh : memory) (s : bytes) (count : Z)
  : result (list float) :=
  if (count <? - SSIZE_MAX - 1) || (SSIZE_MAX <? count) then Raise OverflowError
  else
    let xs := parse_floats (split s) in
    if count <? 0 then
      if room fresh <? 4096 * (len xs / 4096 + 1) then Raise MemoryError
      else Ok xs
    else if MAX_DOUBLES <? count then Raise ValueError
    else if room fresh <? count then Raise MemoryError
    else
      let n := Z.to_nat count in
      Ok (firstn n xs ++ map (slot fresh) (seq (length xs) (n - length xs))).

End Py.

Import Py.

(** ** File objects

    A file opened for reading is the sequence of bytes not yet read; each
    read returns a value and the remaining bytes. A file opened for writing
    is the sequence of bytes written so far, kept also when a later step
    raises. *)
Definition reader (A : Type) : Type := bytes -> result (A * bytes).

Definition rret {A} (a : A) : reader A := fun s => Ok (a, s).

Definition rbind {A B} (m : reader A) (k : A -> reader B) : reader B :=
  fun s => match m s with
           | Ok (a, s') => k a s'
           | Raise e => Raise e
           | OutOfFuel => OutOfFuel
           end.

Definition lift {A} (r : result A) : reader A :=
  fun s => match r with
           | Ok a => Ok (a, s)
           | Raise e => Raise e
           | OutOfFuel => OutOfFuel
           end.

Notation "x <- m ;; k" := (rbind m (fun x => k))
  (at level 61, m at next level, right associativity).

(** [f.read(n)], [f.read()] and [f.readline()]. *)
Definition read (n : Z) : reader bytes :=
  fun s => if n <? 0 then Ok (s, []) else Ok (firstn (Z.to_nat n) s, skipn (Z.to_nat n) s).

Definition read_all : reader bytes := fun s => Ok (s, []).

Fixpoint span_line (s : bytes) : bytes * bytes :=
  match s with
  | [] => ([], [])
  | c :: s' =>
      if Ascii.eqb c LF then ([c], s')
      else let (l, r) := span_line s' in (c :: l, r)
  end.

Definition readline : reader bytes := fun s => Ok (span_line s).

Definition writer (A : Type) : Type := bytes -> result A * bytes.

Definition write (b : bytes) : writer unit := fun out => (Ok tt, out ++ b).

Definition wseq {A} (m : writer unit) (k : writer A) : writer A :=
  fun out => match m out with
             | (Ok _, out') => k out'
             | (Raise e, out') => (Raise e, out')
             | (OutOfFuel, out') => (OutOfFuel, out')
             end.

Definition wlift (r : result bytes) : writer unit :=
  fun out => match r with
             | Ok b => (Ok tt, out ++ b)
             | Raise e => (Raise e, out)
             | OutOfFuel => (OutOfFuel, out)
             end.

Notation "m ;;; k" := (wseq m k) (at level 61, right associativity).

(** ** class WFMFile *)
Module WFMFile.

Definition header : bytes := Eval cbv in lit "MAGIC 1000" ++ [CR; LF].

(** The [while counter < num_bytes] loop of [read_data]. The counter grows
    by 5 in each round, so [num_bytes] rounds of fuel are never used up. *)
Fixpoint read_records (fuel : nat) (counter num_bytes : Z) (data : list float)
  : reader (list float) :=
  if counter <? num_bytes then
    match fuel with
    | O => fun _ => OutOfFuel
    | S f =>
        bunch <- read 5 ;;
        x <- lift (unpack_f (firstn 4 bunch)) ;;
        read_records f (counter + 5) num_bytes (data ++ [x])
    end
  else rret data.

(** [read_data] returns the list [data] and sets the attribute [clock];
    the model returns both. The [print] of the number of points is left out. *)
Definition read_data : reader (list float * bytes) :=
  header <- read 12 ;;
  _ <- read 1 ;;
  d <- read 1 ;;
  num_digits <- lift (int d) ;;
  b <- read num_digits ;;
  num_bytes <- lift (int b) ;;
  data <- read_records (Z.to_nat num_bytes) 0 num_bytes [] ;;
  rest <- read_all ;;
  clock <- lift (item (split rest) 1) ;;
  rret (data, clock).

Fixpoint write_items (data : list float) : writer unit :=
  match data with
  | [] => fun out => (Ok tt, out)
  | item :: data' => wlift (pack_fb item 0) ;;; write_items data'
  end.

Definition write_data (data : list float) (clock : float) : writer unit :=
  write header ;;;
  let num_bytes := 5 * len data in
  let num_digits := len (str_int num_bytes) in
  write ("#"%char :: str_int num_digits ++ str_int num_bytes) ;;;
  write_items data ;;;
  write (lit "CLOCK " ++ format_e10 clock ++ [LF]).

End WFMFile.

(** ** class PulseTxtFile *)
Module PulseTxtFile.

(** [read_data] returns the tuple [(clock, size, data)]. [fresh] is the
    memory that numpy finds for [data]. *)
Definition read_data (fresh : memory) : reader (float * Z * list float) :=
  l1 <- readline ;;
  c <- lift (item (split_on "=" (strip (tl l1))) 1) ;;
  clock <- lift (float_of_str c) ;;
  l2 <- readline ;;
  n <- lift (item (split_on "=" (strip (tl l2))) 1) ;;
  size <- lift (int n) ;;
  str <- read_all ;;
  data <- lift (np_fromstring fresh str size) ;;
  rret (clock, size, data).

End PulseTxtFile.

(** ** class Converter

    [convert] opens the selected names as they are, that is in the working
    directory of the program, and [_update_choices] lists the directory that
    the trait [homeDir] names, which can be the working directory, another
    directory, or no directory at all (as the empty path, which is what
    [homeDir] holds until one is picked). A directory is an association list
    from file names to contents. The names that [convert] opens are taken as
    names of entries of the working directory. *)
Module Converter.

Definition dir := list (bytes * bytes).

Fixpoint lookup (name : bytes) (d : dir) : option bytes :=
  match d with
  | [] => None
  | (n, c) :: d' => if bytes_eqb n name then Some c else lookup name d'
  end.

Fixpoint store (name content : bytes) (d : dir) : dir :=
  match d with
  | [] => [(name, content)]
  | (n, c) :: d' =>
      if bytes_eqb n name then (n, content) :: d' else (n, c) :: store name content d'
  end.

(** What a path names: the working directory, another directory, given by
    the names of its entries, or no directory. *)
Inductive place : Type :=
| working_dir
| other_dir (entries : list bytes)
| no_dir.

(** The working directory [files], and the traits [homeDir] (kept as what
    the path names), [choices], [selected] and [statusText] of the
    converter. *)
Record state : Type := mk_state {
  files : dir;
  homeDir : place;
  choices : list bytes;
  selected : list bytes;
  statusText : bytes
}.

Definition set_files (d : dir) (st : state) : state :=
  mk_state d (homeDir st) (choices st) (selected st) (statusText st).

Definition _feedback (txt : bytes) (st : state) : state :=
  mk_state (files st) (homeDir st) (choices st) (selected st)
    (statusText st ++ txt ++ [LF]).

(** [os.listdir(self.homeDir)]: the names of the entries, or [OSError]. *)
Definition listdir (st : state) : result (list bytes) :=
  match homeDir st with
  | working_dir => Ok (map fst (files st))
  | other_dir entries => Ok entries
  | no_dir => Raise OSError
  end.

Definition startswith_dot (name : bytes) : bool :=
  match name with
  | c :: _ => Ascii.eqb c "."
  | [] => false
  end.

(** When the listing raises [OSError] the method returns and the choices
    stay as they are. *)
Definition _update_choices (st : state) : state :=
  match listdir st with
  | Ok listing =>
      mk_state (files st) (homeDir st)
        (filter (fun n => negb (startswith_dot n)) listing)
        (selected st) (statusText st)
  | _ => st
  end.

Definition _fire_reload_fired (st : state) : state :=
  let st' := _update_choices st in
  _feedback (lit "Reloaded directory, found " ++ str_int (len (choices st'))
               ++ lit " entries.") st'.

(** [fname[:-4] + '.wfm'] *)
Definition new_file_name (fname : bytes) : bytes :=
  let fnameRoot := firstn (length fname - 4) fname in
  fnameRoot ++ lit ".wfm".

(** One round of the [for fname in self.selected] loop. *)
Definition convert_one (fresh : memory) (fname : bytes) (st : state)
  : result unit * state :=
  match lookup fname (files st) with
  | None => (Raise IOError, st)
  | Some txt =>
      match PulseTxtFile.read_data fresh txt with
      | Ok ((clock, size, data), _) =>
          let newFileName := new_file_name fname in
          let st1 := set_files (store newFileName [] (files st)) st in
          match WFMFile.write_data data clock [] with
          | (Ok _, out) =>
              let st2 := set_files (store newFileName out (files st1)) st1 in
              (Ok tt, _feedback (lit "Created " ++ newFileName) st2)
          | (Raise e, out) => (Raise e, set_files (store newFileName out (files st1)) st1)
          | (OutOfFuel, out) => (OutOfFuel, st1)
          end
      | Raise e => (Raise e, st)
      | OutOfFuel => (OutOfFuel, st)
      end
  end.

Fixpoint convert_loop (fresh : memory) (names : list bytes) (st : state)
  : result unit * state :=
  match names with
  | [] => (Ok tt, st)
  | fname :: rest =>
      match convert_one fresh fname st with
      | (Ok _, st') => convert_loop fresh rest st'
      | r => r
      end
  end.

Definition convert (fresh : memory) (st : state) : result unit * state :=
  match convert_loop fresh (selected st) st with
  | (Ok _, st') => (Ok tt, _fire_reload_fired st')
  | r => r
  end.

End Converter.

(** ** Vocabulary of the statements *)

(** A sample value that binary32 holds exactly: packing it and unpacking
    the four bytes gives the value back. NaN is left out, since Python does
    not hold a NaN equal to anything. *)
Definition f32_exact (x : float) : Prop :=
  x <> S754_nan /\ exists w, float_to_bits32 x = Ok w /\ bits32_to_float w = x.

Definition is_finite (x : float) : bool :=
  match x with
  | S754_zero _ | S754_finite _ _ _ => true
  | _ => false
  end.

(** The layout of a waveform file: a 12-byte header [h], the length field
    for [nb], the records and what follows them. *)
Definition layout (h : bytes) (nb : Z) (recs : list bytes) (tail : bytes) : bytes :=
  h ++ "#"%char :: str_int (len (str_int nb)) ++ str_int nb ++ concat recs ++ tail.

(** The sample that [read_data] takes from a record. *)
Definition sample_of (r : bytes) : float := bits32_to_float (le_word (firstn 4 r)).

(** The record that [write_data] writes for a value with bit pattern [w]. *)
Definition record_of (w : Z) : bytes := le_bytes 4 w ++ [chr 0].

(** A byte that [str.split] does not take for white space. *)
Definition printable (c : ascii) : Prop := is_space c = false.

(** The trailer that [write_data] writes for a clock rate. *)
Definition trailer (clock : float) : bytes := lit "CLOCK " ++ format_e10 clock ++ [LF].

(** Scientific notation with ten digits after the point and a signed
    exponent: an optional minus sign, one digit, a point, exactly ten digits,
    [e], a sign, and two or more digits. *)
Definition is_sci10 (s : bytes) : bool :=
  let t := match s with
           | c :: r => if Ascii.eqb c "-" then r else s
           | [] => []
           end in
  match t with
  | d :: p :: r =>
      is_digit d && Ascii.eqb p "."
      && forallb is_digit (firstn 10 r) && (length (firstn 10 r) =? 10)%nat
      && match skipn 10 r with
         | e :: sg :: ex =>
             Ascii.eqb e "e" && (Ascii.eqb sg "+" || Ascii.eqb sg "-")
             && forallb is_digit ex && (2 <=? length ex)%nat
         | _ => false
         end
  | _ => false
  end.

(** [q * 10^(k-10)] is within half a unit of its last digit of [m * 2^e]:
    [|m * 2^e - q * 10^(k-10)| <= 10^(k-10) / 2], with both sides multiplied
    by [2 * 2^max(-e,0) * 10^max(10-k,0)] so that they are integers. *)
Definition within_half_unit (m e q k : Z) : Prop :=
  2 * Z.abs (m * 2 ^ Z.max e 0 * 10 ^ Z.max (10 - k) 0
             - q * 2 ^ Z.max (- e) 0 * 10 ^ Z.max (k - 10) 0)
  <= 2 ^ Z.max (- e) 0 * 10 ^ Z.max (k - 10) 0.

(** How the text [tok] of a clock rate relates to the clock rate: the
    eleven digits [q] and the exponent [k] that it shows are the clock rate
    to within half a unit of the last digit shown. *)
Definition clock_text_close (clock : float) (tok : bytes) : Prop :=
  match clock with
  | S754_finite s m e =>
      exists q k, tok = sign_str s ++ render_sci (q, k)
                  /\ 10 ^ 10 <= q < 10 ^ 11
                  /\ within_half_unit (Z.pos m) e q k
  | S754_zero s => tok = sign_str s ++ lit "0.0000000000e+00"
  | S754_infinity s => tok = sign_str s ++ lit "inf"
  | S754_nan => tok = lit "nan"
  end.

(** A value that [struct.pack] accepts for the format [f]. *)
Definition packable (x : float) : Prop := exists w, float_to_bits32 x = Ok w.

(** The value 1.0, and a series of 200,000,000 samples: its body has
    1,000,000,000 bytes, the first length that takes ten digits. *)
Definition one : float := S754_finite false 4503599627370496 (-52).

Definition long_series : list float := repeat one (Z.to_nat 200000000).

(** Files used as examples: one record for the value 1.0 with marker byte
    [mk]; a header that is not the magic text; a length field of 7 bytes
    before two records. *)
Definition marked_file (mk : Z) : bytes :=
  layout WFMFile.header 5 [le_bytes 4 1065353216 ++ [chr mk]] (trailer one).

Definition bad_magic_file : bytes :=
  layout (lit "NOT A HEADER") 5 [record_of 1065353216] (trailer one).

Definition misaligned_file : bytes :=
  layout WFMFile.header 7 [record_of 1065353216; record_of 1065353216] (trailer one).

(** A text that declares 10 samples and holds 8, and memory with room for
    1000 doubles that holds NaN before numpy fills it. *)
Definition short_text : bytes :=
  lit "#clock=1e9" ++ [CR; LF] ++ lit "#size=10" ++ [CR; LF]
  ++ concat (repeat (lit "0.5" ++ [CR; LF]) 8).

Definition fresh_nan : memory := mk_memory 1000 (fun _ => S754_nan).

(** [l] without its last [n] elements. *)
Definition drop_last {A} (n : nat) (l : list A) : list A := rev (skipn n (rev l)).

(** A directory with a text that has no header lines. *)
Definition bad_dir : Converter.state :=
  Converter.mk_state [(lit "bad.txt", lit "no header here")] Converter.working_dir []
    [lit "bad.txt"; lit "other.txt"] [].

(** A directory with two texts whose names differ in their last four
    characters. *)
Definition text_of (sample : string) : bytes :=
  lit "#clock=1e9" ++ [CR; LF] ++ lit "#size=1" ++ [CR; LF] ++ lit sample ++ [CR; LF].

Definition twin_dir : Converter.state :=
  Converter.mk_state [(lit "a.csv", text_of "0.5"); (lit "a.txt", text_of "1.0")]
    Converter.working_dir [] [lit "a.csv"; lit "a.txt"] [].

(** ** The listing loop of [_update_choices], statement by statement

    [for item in listing[:]: if item.startswith('.'): listing.remove(item)]:
    the loop runs over a copy of the listing and removes from the listing
    itself. [list.remove] takes out the first element equal to its argument
    and raises [ValueError] when there is none. *)
Module Listing.

Fixpoint remove (x : bytes) (l : list bytes) : result (list bytes) :=
  match l with
  | [] => Raise ValueError
  | y :: l' =>
      if bytes_eqb y x then Ok l'
      else bind (remove x l') (fun r => Ok (y :: r))
  end.

Fixpoint loop (copy listing : list bytes) : result (list bytes) :=
  match copy with
  | [] => Ok listing
  | item :: rest =>
      if Converter.startswith_dot item
      then bind (remove item listing) (fun listing' => loop rest listing')
      else loop rest listing
  end.

Definition _update_choices (st : Converter.state) : result Converter.state :=
  match Converter.listdir st with
  | Ok listing =>
      bind (loop listing listing) (fun listing' =>
      Ok (Converter.mk_state (Converter.files st) (Converter.homeDir st) listing'
            (Converter.selected st) (Converter.statusText st)))
  | Raise OSError => Ok st
  | Raise e => Raise e
  | OutOfFuel => OutOfFuel
  end.

End Listing.

(** [s] without the white space at its end. *)
Definition rstrip (s : bytes) : bytes := rev (lstrip (rev s)).

(** A header line of a text: a first character, a key, [=] and a value. *)
Definition header_line (c : ascii) (key value : bytes) : bytes :=
  c :: key ++ "="%char :: value.

(** A name that the listing shows. *)
Definition visible (n : bytes) : bool := negb (Converter.startswith_dot n).

(** What [convert] adds to the status text for a converted name, and what
    the reload adds for a listing of [n] choices. *)
Definition created_line (fname : bytes) : bytes :=
  lit "Created " ++ Converter.new_file_name fname ++ [LF].

Definition reloaded_line (n : Z) : bytes :=
  lit "Reloaded directory, found " ++ str_int n ++ lit " entries." ++ [LF].

(** A text with a sample beyond the range of binary32. *)
Definition overflow_dir : Converter.state :=
  Converter.mk_state
    [(lit "big.txt",
      lit "#clock=1e9" ++ [CR; LF] ++ lit "#size=2" ++ [CR; LF]
      ++ lit "1.0" ++ [CR; LF] ++ lit "1e39" ++ [CR; LF])]
    Converter.working_dir [] [lit "big.txt"] [].

(** A record with its marker byte set to 0. *)
Definition zero_marker (r : bytes) : bytes := firstn 4 r ++ [chr 0].

(** White space, as [str.split] takes it. *)
Definition blank (c : ascii) : Prop := is_space c = true.

(** The length field that [write_data] writes for a byte count. *)
Definition length_field (nb : Z) : bytes :=
  "#"%char :: str_int (len (str_int nb)) ++ str_int nb.

(** A value rounded to binary32, as a Python float. *)
Definition round32 (x : float) : result float :=
  bind (float_to_bits32 x) (fun w => Ok (bits32_to_float w)).

(** The value 0.1, the binary32 value next to it, and a value beyond the
    range of binary32. *)
Definition tenth : float := S754_finite false 7205759403792794 (-56).
Definition tenth32 : float := S754_finite false 7205759511166976 (-56).
Definition huge : float := S754_finite false 6617444900424221 77.

(** * Properties *)

(** ** The built-ins on small inputs *)
Section Examples.

Example str_int_5000 : str_int 5000 = lit "5000".
Proof. reflexivity. Qed.

Example int_padded : int (lit " 045 ") = Ok 45.
Proof. reflexivity. Qed.

Example int_empty : int [] = Raise ValueError.
Proof. reflexivity. Qed.

Example float_of_str_one : float_of_str (lit "1.0") = Ok one.
Proof. vm_compute. reflexivity. Qed.

Example float_of_str_tenth :
  float_of_str (lit "0.1") = Ok (S754_finite false 7205759403792794 (-56)).
Proof. vm_compute. reflexivity. Qed.

Example format_e10_clock :
  format_e10 (S754_finite false 5178153039298560 (-22)) = lit "1.2345678900e+09".
Proof. vm_compute. reflexivity. Qed.

Example format_e10_carry :
  bind (float_of_str (lit "9.99999999996")) (fun x => Ok (format_e10 x))
  = Ok (lit "1.0000000000e+01").
Proof. vm_compute. reflexivity. Qed.

Example format_e10_small :
  bind (float_of_str (lit "-2.5e-7")) (fun x => Ok (format_e10 x))
  = Ok (lit "-2.5000000000e-07").
Proof. vm_compute. reflexivity. Qed.

Example pack_one : pack_fb one 0 = Ok (map chr [0; 0; 128; 63; 0]).
Proof. vm_compute. reflexivity. Qed.

Example pack_tenth_rounds :
  bind (float_of_str (lit "0.1")) (fun x => pack_fb x 0)
  = Ok (map chr [205; 204; 204; 61; 0]).
Proof. vm_compute. reflexivity. Qed.

Example pack_overflow :
  bind (float_of_str (lit "1e39")) (fun x => pack_fb x 0) = Raise OverflowError.
Proof. vm_compute. reflexivity. Qed.

Example unpack_short : unpack_f (map chr [0; 0; 128]) = Raise StructError.
Proof. reflexivity. Qed.

Example split_words : split (lit "  CLOCK  1e9 ") = [lit "CLOCK"; lit "1e9"].
Proof. reflexivity. Qed.

Example write_empty_series :
  WFMFile.write_data [] one []
  = (Ok tt, WFMFile.header ++ lit "#10" ++ lit "CLOCK 1.0000000000e+00" ++ [LF]).
Proof. vm_compute. reflexivity. Qed.

Example read_empty_series :
  WFMFile.read_data (WFMFile.header ++ lit "#10" ++ lit "CLOCK 1.0000000000e+00" ++ [LF])
  = Ok (([], lit "1.0000000000e+00"), []).
Proof. vm_compute. reflexivity. Qed.

Example read_truncated_body :
  WFMFile.read_data (WFMFile.header ++ lit "#15" ++ map chr [0; 0; 128])
  = Raise StructError.
Proof. vm_compute. reflexivity. Qed.

Example fromstring_number_prefix :
  parse_floats (split (lit "1.234 1,234 5"))
  = [S754_finite false 5557441940175192 (-52); one].
Proof. reflexivity. Qed.

Example fromstring_no_number :
  parse_floats (split (lit "0.5 abc 1.0")) = [S754_finite false 4503599627370496 (-53)].
Proof. reflexivity. Qed.

Example fromstring_count_overflow :
  np_fromstring fresh_nan (lit "0.5") (2 ^ 63) = Raise OverflowError.
Proof. reflexivity. Qed.

Example fromstring_array_too_big :
  np_fromstring fresh_nan (lit "0.5") (2 ^ 60) = Raise ValueError.
Proof. reflexivity. Qed.

Example fromstring_no_room :
  np_fromstring fresh_nan (lit "0.5") 1001 = Raise MemoryError.
Proof. reflexivity. Qed.

End Examples.

(** ** Bytes and decimal digits *)
Section Bytes.

Lemma ord_range (c : ascii) : 0 <= ord c < 256.
Proof.
  unfold ord. pose proof (N_ascii_bounded c). lia.
Qed.

Lemma chr_ord (c : ascii) : chr (ord c) = c.
Proof.
  unfold chr. rewrite Z.mod_small by apply ord_range.
  unfold ord. rewrite N2Z.id. apply ascii_N_embedding.
Qed.

Lemma ord_chr (z : Z) : ord (chr z) = z mod 256.
Proof.
  unfold ord, chr. pose proof (Z.mod_pos_bound z 256 ltac:(lia)).
  rewrite N_ascii_embedding by lia. lia.
Qed.

Lemma ord_inj (a b : ascii) : ord a = ord b -> a = b.
Proof.
  intros H. rewrite <- (chr_ord a), <- (chr_ord b). now rewrite H.
Qed.

Lemma ord_digit_char (d : Z) : 0 <= d < 10 -> ord (digit_char d) = 48 + d.
Proof.
  intros H. unfold digit_char. rewrite ord_chr. apply Z.mod_small. lia.
Qed.

Lemma is_digit_digit_char (d : Z) : 0 <= d < 10 -> is_digit (digit_char d) = true.
Proof.
  intros H. unfold is_digit. rewrite ord_digit_char by lia. lia.
Qed.

Lemma digit_val_digit_char (d : Z) : 0 <= d < 10 -> digit_val (digit_char d) = d.
Proof.
  intros H. unfold digit_val. rewrite ord_digit_char by lia. lia.
Qed.

Lemma is_digit_not_space (c : ascii) : is_digit c = true -> is_space c = false.
Proof.
  unfold is_digit, is_space. lia.
Qed.

End Bytes.

(** ** [str] of an integer *)
Section StrInt.

Lemma digits_aux_acc (f : nat) : forall n acc,
  digits_aux f n acc = digits_aux f n [] ++ acc.
Proof.
  induction f as [|f IH]; intros n acc; simpl.
  - reflexivity.
  - destruct (n <? 10); [reflexivity|].
    rewrite IH, (IH _ [_]), <- app_assoc. reflexivity.
Qed.

Lemma digits_aux_fuel (f1 : nat) : forall f2 n acc,
  0 <= n -> n < 10 ^ (Z.of_nat f1 + 1) -> n < 10 ^ (Z.of_nat f2 + 1) ->
  digits_aux f1 n acc = digits_aux f2 n acc.
Proof.
  induction f1 as [|f1 IH]; intros f2 n acc Hn H1 H2.
  - simpl in H1. destruct f2; simpl; [reflexivity|].
    destruct (Z.ltb_spec n 10); [reflexivity|lia].
  - simpl. destruct (Z.ltb_spec n 10) as [Hlt|Hge].
    + destruct f2; simpl; [reflexivity|].
      destruct (Z.ltb_spec n 10); [reflexivity|lia].
    + destruct f2 as [|f2].
      * simpl in H2. lia.
      * simpl. destruct (Z.ltb_spec n 10); [lia|].
        apply IH.
        -- apply Z.div_pos; lia.
        -- apply Z.div_lt_upper_bound; [lia|].
           rewrite <- Z.pow_succ_r by lia.
           replace (Z.succ (Z.of_nat f1 + 1)) with (Z.of_nat (S f1) + 1) by lia.
           exact H1.
        -- apply Z.div_lt_upper_bound; [lia|].
           rewrite <- Z.pow_succ_r by lia.
           replace (Z.succ (Z.of_nat f2 + 1)) with (Z.of_nat (S f2) + 1) by lia.
           exact H2.
Qed.

Lemma log2_fuel (n : Z) : 0 <= n -> n < 10 ^ (Z.of_nat (Z.to_nat (Z.log2 n)) + 1).
Proof.
  intros Hn. pose proof (Z.log2_nonneg n) as Hl.
  rewrite Z2Nat.id by exact Hl.
  destruct (Z.eq_dec n 0) as [->|Hz]; [simpl; lia|].
  pose proof (Z.log2_spec n ltac:(lia)) as [_ Hu].
  eapply Z.lt_le_trans; [exact Hu|].
  replace (Z.succ (Z.log2 n)) with (Z.log2 n + 1) by lia.
  apply Z.pow_le_mono_l. lia.
Qed.

Lemma str_nonneg_small (n : Z) : 0 <= n < 10 -> str_nonneg n = [digit_char n].
Proof.
  intros H. unfold str_nonneg.
  rewrite (digits_aux_fuel _ 0 n []); [|lia|apply log2_fuel; lia|simpl; lia].
  simpl. rewrite Z.mod_small by lia. reflexivity.
Qed.

Lemma str_nonneg_step (n : Z) :
  10 <= n -> str_nonneg n = str_nonneg (n / 10) ++ [digit_char (n mod 10)].
Proof.
  intros H. unfold str_nonneg.
  assert (Hq : 0 <= n / 10) by (apply Z.div_pos; lia).
  rewrite (digits_aux_fuel _ (S (Z.to_nat (Z.log2 (n / 10)))) n []);
    [|lia|apply log2_fuel; lia|].
  - simpl. destruct (Z.ltb_spec n 10); [lia|].
    apply digits_aux_acc.
  - pose proof (log2_fuel (n / 10) Hq) as Hf.
    replace (Z.of_nat (S (Z.to_nat (Z.log2 (n / 10)))) + 1)
      with (Z.succ (Z.of_nat (Z.to_nat (Z.log2 (n / 10))) + 1)) by lia.
    rewrite Z.pow_succ_r by lia.
    pose proof (Z.div_mod n 10 ltac:(lia)).
    pose proof (Z.mod_pos_bound n 10 ltac:(lia)). lia.
Qed.

(** Induction on the decimal digits of a number. *)
Lemma decimal_ind (P : Z -> Prop) :
  (forall n, 0 <= n < 10 -> P n) ->
  (forall n, 10 <= n -> P (n / 10) -> P n) ->
  forall n, 0 <= n -> P n.
Proof.
  intros Hs Hl n Hn. pattern n. apply (Zlt_0_ind); [|exact Hn].
  intros x IH Hx. destruct (Z_lt_ge_dec x 10) as [Hlt|Hge].
  - apply Hs. lia.
  - apply Hl; [lia|]. apply IH. split.
    + apply Z.div_pos; lia.
    + apply Z.div_lt; lia.
Qed.

Lemma str_nonneg_digits (n : Z) :
  0 <= n -> Forall (fun c => is_digit c = true) (str_nonneg n).
Proof.
  intros Hn. pattern n. apply decimal_ind; [| |exact Hn]; clear n Hn.
  - intros n H. rewrite str_nonneg_small by exact H.
    constructor; [apply is_digit_digit_char; exact H|constructor].
  - intros n H IH. rewrite str_nonneg_step by exact H.
    apply Forall_app. split; [exact IH|].
    constructor; [|constructor].
    apply is_digit_digit_char. apply Z.mod_pos_bound. lia.
Qed.

Lemma str_nonneg_nonempty (n : Z) : 0 <= n -> str_nonneg n <> [].
Proof.
  intros Hn. destruct (Z_lt_ge_dec n 10).
  - rewrite str_nonneg_small by lia. discriminate.
  - rewrite str_nonneg_step by lia. intros E. apply app_eq_nil in E. destruct E; discriminate.
Qed.

(** The length of [str(n)] is the number of decimal digits of [n]. *)
Lemma len_str_nonneg (n : Z) :
  0 <= n ->
  1 <= len (str_nonneg n)
  /\ n < 10 ^ len (str_nonneg n)
  /\ (1 < len (str_nonneg n) -> 10 ^ (len (str_nonneg n) - 1) <= n).
Proof.
  intros Hn. pattern n. apply decimal_ind; [| |exact Hn]; clear n Hn.
  - intros n H. rewrite str_nonneg_small by exact H. unfold len. simpl. lia.
  - intros n H (IH1 & IH2 & IH3). rewrite str_nonneg_step by exact H.
    unfold len in *.
    set (d := Z.of_nat (length (str_nonneg (n / 10)))) in *.
    assert (E : Z.of_nat (length (str_nonneg (n / 10) ++ [digit_char (n mod 10)])) = d + 1)
      by (rewrite length_app, Nat2Z.inj_add; reflexivity).
    rewrite E. clear E.
    pose proof (Z.div_mod n 10 ltac:(lia)).
    pose proof (Z.mod_pos_bound n 10 ltac:(lia)).
    split; [lia|]. split.
    + rewrite Z.pow_add_r by lia. lia.
    + intros _. replace (d + 1 - 1) with (Z.succ (d - 1)) by lia.
      rewrite Z.pow_succ_r by lia.
      destruct (Z.eq_dec d 1) as [->|Hd]; [simpl; lia|].
      specialize (IH3 ltac:(lia)). lia.
Qed.

Lemma parse_digits_app (s t : bytes) : forall a,
  parse_digits (s ++ t) a =
  match parse_digits s a with Some b => parse_digits t b | None => None end.
Proof.
  induction s as [|c s IH]; intros a; simpl; [reflexivity|].
  destruct (is_digit c); [apply IH|reflexivity].
Qed.

Lemma parse_digits_str_nonneg (n : Z) :
  0 <= n -> forall a, parse_digits (str_nonneg n) a = Some (a * 10 ^ len (str_nonneg n) + n).
Proof.
  intros Hn. pattern n. apply decimal_ind; [| |exact Hn]; clear n Hn.
  - intros n H a. rewrite str_nonneg_small by exact H.
    change (len [digit_char n]) with 1. cbn [parse_digits].
    rewrite is_digit_digit_char, digit_val_digit_char by exact H. f_equal. lia.
  - intros n H IH a. rewrite str_nonneg_step by exact H.
    rewrite parse_digits_app, IH. cbn [parse_digits].
    pose proof (Z.mod_pos_bound n 10 ltac:(lia)) as Hm.
    rewrite is_digit_digit_char, digit_val_digit_char by exact Hm.
    f_equal. unfold len. rewrite length_app, Nat2Z.inj_add.
    change (Z.of_nat (length [digit_char (n mod 10)])) with 1.
    rewrite Z.pow_add_r by lia.
    pose proof (Z.div_mod n 10 ltac:(lia)). lia.
Qed.

Lemma lstrip_digits (s : bytes) :
  Forall (fun c => is_digit c = true) s -> lstrip s = s.
Proof.
  destruct 1 as [|c s Hc _]; [reflexivity|].
  simpl. rewrite (is_digit_not_space c Hc). reflexivity.
Qed.

Lemma strip_digits (s : bytes) :
  Forall (fun c => is_digit c = true) s -> strip s = s.
Proof.
  intros H. unfold strip. rewrite (lstrip_digits s H).
  rewrite lstrip_digits by (apply Forall_rev; exact H).
  apply rev_involutive.
Qed.

Lemma split_sign_digits (s : bytes) :
  Forall (fun c => is_digit c = true) s -> split_sign s = (false, s).
Proof.
  destruct 1 as [|c s Hc _]; [reflexivity|].
  simpl. unfold is_digit in Hc.
  destruct (Ascii.eqb_spec c "-") as [->|_]; [discriminate|].
  destruct (Ascii.eqb_spec c "+") as [->|_]; [discriminate|]. reflexivity.
Qed.

(** [int(str(n)) == n] for a natural number. *)
Lemma int_str_int (n : Z) : 0 <= n -> int (str_int n) = Ok n.
Proof.
  intros Hn. unfold str_int. destruct (Z.ltb_spec n 0); [lia|].
  pose proof (str_nonneg_digits n Hn) as Hd.
  unfold int. rewrite strip_digits, split_sign_digits by exact Hd.
  unfold parse_nat. pose proof (str_nonneg_nonempty n Hn).
  destruct (str_nonneg n) eqn:E; [congruence|].
  rewrite <- E, parse_digits_str_nonneg by exact Hn. reflexivity.
Qed.

End StrInt.

(** ** Little-endian words *)
Section Words.

Lemma le_bytes_length (n : nat) : forall w, length (le_bytes n w) = n.
Proof.
  induction n as [|n IH]; intros w; simpl; [reflexivity|]. now rewrite IH.
Qed.

Lemma le_word_le_bytes (n : nat) : forall w,
  le_word (le_bytes n w) = w mod 256 ^ Z.of_nat n.
Proof.
  induction n as [|n IH]; intros w.
  - simpl. now rewrite Z.mod_1_r.
  - cbn [le_bytes le_word]. rewrite IH, ord_chr.
    rewrite Nat2Z.inj_succ, Z.pow_succ_r by lia.
    rewrite Z.rem_mul_r by lia. reflexivity.
Qed.

Lemma le_word_le_bytes_4 (w : Z) :
  0 <= w < 2 ^ 32 -> le_word (le_bytes 4 w) = w.
Proof.
  intros H. rewrite le_word_le_bytes. apply Z.mod_small.
  change (256 ^ Z.of_nat 4) with (2 ^ 32). exact H.
Qed.

Lemma sign_bit_range (s : bool) : sign_bit s = 0 \/ sign_bit s = 2147483648.
Proof.
  destruct s; [right|left]; reflexivity.
Qed.

Lemma float_to_bits32_range (x : float) (w : Z) :
  float_to_bits32 x = Ok w -> 0 <= w < 2 ^ 32.
Proof.
  change (2 ^ 32) with 4294967296.
  unfold float_to_bits32.
  change (2 ^ 23) with 8388608. change (2 ^ 22) with 4194304.
  destruct x as [s|s| |s m e].
  - intros [= <-]. destruct (sign_bit_range s) as [-> | ->]; lia.
  - intros [= <-]. destruct (sign_bit_range s) as [-> | ->]; lia.
  - intros [= <-]. lia.
  - destruct (binary_normalize 24 128 (cond_Zopp s (Z.pos m)) e s) as [s'|s'| |s' m' e'];
      try discriminate.
    + intros [= <-]. destruct (sign_bit_range s') as [-> | ->]; lia.
    + intros [= <-].
      pose proof (Z.mod_pos_bound (Z.pos m') 8388608 ltac:(lia)).
      pose proof (Z.mod_pos_bound (e' + 150) 256 ltac:(lia)).
      destruct (8388608 <=? Z.pos m');
        destruct (sign_bit_range s') as [-> | ->]; lia.
Qed.

Lemma sample_of_record_of (w : Z) (mk : ascii) :
  0 <= w < 2 ^ 32 -> sample_of (le_bytes 4 w ++ [mk]) = bits32_to_float w.
Proof.
  intros H. unfold sample_of.
  replace (firstn 4 (le_bytes 4 w ++ [mk])) with (le_bytes 4 w).
  - now rewrite le_word_le_bytes_4.
  - rewrite firstn_app, le_bytes_length. simpl (4 - 4)%nat.
    rewrite firstn_all2 by (rewrite le_bytes_length; lia).
    cbn [firstn]. now rewrite app_nil_r.
Qed.

End Words.

(** ** Reading *)
Section Reading.

Lemma read_app (a b : bytes) : read (len a) (a ++ b) = Ok (a, b).
Proof.
  unfold read, len. destruct (Z.ltb_spec (Z.of_nat (length a)) 0); [lia|].
  rewrite Nat2Z.id.
  rewrite firstn_app, skipn_app, Nat.sub_diag, firstn_all, skipn_all.
  simpl. now rewrite app_nil_r.
Qed.

Lemma read_app_n (n : Z) (a b : bytes) : n = len a -> read n (a ++ b) = Ok (a, b).
Proof.
  intros ->. apply read_app.
Qed.

Lemma split_go_word (w : bytes) : forall cur rest,
  Forall (fun c => is_space c = false) w ->
  split_go (w ++ rest) cur = split_go rest (rev w ++ cur).
Proof.
  induction w as [|c w IH]; intros cur rest H; [reflexivity|].
  inversion H as [|? ? Hc Hw]; subst.
  simpl. rewrite Hc, IH by exact Hw. now rewrite <- app_assoc.
Qed.

(** The trailer that [write_data] writes splits into [CLOCK] and the clock token. *)
Lemma split_trailer (tok : bytes) :
  tok <> [] -> Forall (fun c => is_space c = false) tok ->
  split (lit "CLOCK " ++ tok ++ [LF]) = [lit "CLOCK"; tok].
Proof.
  intros Hne Hns. unfold split.
  change (lit "CLOCK " ++ tok ++ [LF]) with (lit "CLOCK" ++ " "%char :: tok ++ [LF]).
  rewrite split_go_word by (repeat constructor).
  cbn [rev app lit list_ascii_of_string split_go].
  change (is_space " ") with true. cbv iota.
  rewrite split_go_word by exact Hns.
  rewrite app_nil_r. cbn [split_go]. change (is_space LF) with true. cbv iota.
  destruct (rev tok) eqn:E.
  - apply (f_equal (@rev _)) in E. rewrite rev_involutive in E. contradiction.
  - rewrite <- E, rev_involutive. reflexivity.
Qed.

(** The loop of [read_data] takes one sample from each record in turn, and
    as many records as it takes steps of 5 to reach [num_bytes]. *)
Lemma read_records_ok (recs : list bytes) : forall fuel counter nb data tail,
  Forall (fun r => length r = 5%nat) recs ->
  nb <= counter + 5 * len recs ->
  (0 < len recs -> counter + 5 * len recs - 5 < nb) ->
  len recs <= Z.of_nat fuel ->
  WFMFile.read_records fuel counter nb data (concat recs ++ tail)
  = Ok (data ++ map sample_of recs, tail).
Proof.
  induction recs as [|r recs IH]; intros fuel counter nb data tail Hr Hu Hl Hf.
  - unfold len in *. simpl in *.
    destruct fuel; simpl; (destruct (Z.ltb_spec counter nb); [lia|]);
      unfold rret; now rewrite app_nil_r.
  - inversion Hr as [|? ? Hr1 Hr2]; subst.
    assert (Hlen : len (r :: recs) = len recs + 1)
      by (unfold len; simpl length; lia).
    rewrite Hlen in *. assert (0 <= len recs) by (unfold len; lia).
    destruct fuel as [|fuel]; [lia|].
    cbn [WFMFile.read_records concat].
    destruct (Z.ltb_spec counter nb); [|lia].
    unfold rbind at 1. rewrite <- app_assoc.
    rewrite (read_app_n 5 r) by (unfold len; lia).
    unfold rbind at 1, lift, unpack_f.
    assert (length (firstn 4 r) = 4%nat) as -> by (rewrite length_firstn; lia).
    cbn [Nat.eqb].
    rewrite IH; try assumption; try lia.
    cbn [map]. now rewrite <- app_assoc.
Qed.

(** The loop never uses up its fuel. *)
Lemma read_records_fuel (fuel : nat) : forall counter nb data s,
  nb - counter <= Z.of_nat fuel ->
  WFMFile.read_records fuel counter nb data s <> OutOfFuel.
Proof.
  induction fuel as [|fuel IH]; intros counter nb data s H.
  - simpl. destruct (Z.ltb_spec counter nb); [lia|]. discriminate.
  - cbn [WFMFile.read_records]. destruct (Z.ltb_spec counter nb); [|discriminate].
    unfold rbind at 1. unfold read. cbn [Z.ltb Z.compare].
    unfold rbind at 1, lift, unpack_f.
    destruct (length _ =? 4)%nat; [|discriminate].
    apply IH. lia.
Qed.

End Reading.

(** ** The waveform codec *)
Section Codec.

Lemma str_int_nonneg (n : Z) : 0 <= n -> str_int n = str_nonneg n.
Proof.
  intros H. unfold str_int. destruct (Z.ltb_spec n 0); [lia|reflexivity].
Qed.

Lemma len_str_int_le (n k : Z) : 0 <= n < 10 ^ k -> 1 <= k -> len (str_int n) <= k.
Proof.
  intros [Hn Hk] H1. rewrite str_int_nonneg by exact Hn.
  destruct (len_str_nonneg n Hn) as (Hd1 & _ & Hd3).
  destruct (Z_le_gt_dec (len (str_nonneg n)) k) as [Hle|Hgt]; [exact Hle|].
  specialize (Hd3 ltac:(lia)).
  assert (10 ^ k <= 10 ^ (len (str_nonneg n) - 1)) by (apply Z.pow_le_mono_r; lia).
  lia.
Qed.

Lemma len_str_int_gt (n k : Z) : 0 <= k -> 10 ^ k <= n -> k < len (str_int n).
Proof.
  intros Hk Hn. assert (0 < 10 ^ k) by (apply Z.pow_pos_nonneg; lia).
  rewrite str_int_nonneg by lia.
  destruct (len_str_nonneg n ltac:(lia)) as (Hd1 & Hd2 & _).
  apply (Z.pow_lt_mono_r_iff 10); lia.
Qed.

Lemma len_nonneg {A} (l : list A) : 0 <= len l.
Proof.
  unfold len. lia.
Qed.

Lemma len_cons {A} (x : A) (l : list A) : len (x :: l) = len l + 1.
Proof.
  unfold len. simpl length. lia.
Qed.

Lemma len_map {A B} (f : A -> B) (l : list A) : len (map f l) = len l.
Proof.
  unfold len. now rewrite length_map.
Qed.

(** What [read_data] returns on a file of the waveform layout whose length
    field has one digit of digit count. The result does not depend on the
    header bytes, nor on the fifth byte of any record. *)
Lemma read_data_layout (h : bytes) (nb : Z) (recs : list bytes) (tail : bytes) :
  length h = 12%nat ->
  0 <= nb < 10 ^ 9 ->
  Forall (fun r => length r = 5%nat) recs ->
  nb <= 5 * len recs ->
  (0 < len recs -> 5 * len recs - 5 < nb) ->
  WFMFile.read_data (layout h nb recs tail)
  = match item (split tail) 1 with
    | Ok c => Ok ((map sample_of recs, c), [])
    | Raise e => Raise e
    | OutOfFuel => OutOfFuel
    end.
Proof.
  intros Hh Hnb Hrecs Hu Hl.
  pose proof (len_str_int_le nb 9 Hnb ltac:(lia)) as Hd9.
  assert (Hd1 : 1 <= len (str_int nb)).
  { rewrite str_int_nonneg by lia. apply len_str_nonneg. lia. }
  set (nd := len (str_int nb)) in *.
  unfold layout, WFMFile.read_data. fold nd.
  unfold rbind at 1. rewrite (read_app_n 12 h) by (unfold len; lia).
  unfold rbind at 1. change (read 1 ("#"%char :: ?x)) with (Ok (["#"%char], x)).
  rewrite (str_int_nonneg nd), (str_nonneg_small nd) by lia.
  unfold rbind at 1. cbn [app].
  change (read 1 (digit_char nd :: ?x)) with (Ok ([digit_char nd], x)).
  unfold rbind at 1.
  rewrite <- (str_nonneg_small nd), <- (str_int_nonneg nd) by lia.
  rewrite int_str_int by lia. cbn [lift].
  unfold rbind at 1. rewrite (read_app_n nd (str_int nb)) by reflexivity.
  unfold rbind at 1. rewrite int_str_int by lia. cbn [lift].
  unfold rbind at 1.
  pose proof (len_nonneg recs).
  rewrite read_records_ok; try assumption; try lia.
  unfold rbind at 1, read_all. unfold rbind, lift, rret.
  destruct (item (split tail) 1); reflexivity.
Qed.

Lemma rbind_fuel {A B} (m : reader A) (k : A -> reader B) (s : bytes) :
  rbind m k s = OutOfFuel ->
  m s = OutOfFuel \/ exists a s', m s = Ok (a, s') /\ k a s' = OutOfFuel.
Proof.
  unfold rbind. destruct (m s) as [[a s']|e|]; intros H.
  - right. now exists a, s'.
  - discriminate.
  - now left.
Qed.

Lemma read_no_fuel (n : Z) (s : bytes) : read n s <> OutOfFuel.
Proof.
  unfold read. destruct (n <? 0); discriminate.
Qed.

Lemma lift_int_no_fuel (b s : bytes) : lift (int b) s <> OutOfFuel.
Proof.
  unfold lift, int. destruct (split_sign (strip b)) as [neg d].
  destruct (parse_nat d); discriminate.
Qed.

Lemma lift_item_no_fuel {A} (l : list A) (i : nat) (s : bytes) :
  lift (item l i) s <> OutOfFuel.
Proof.
  unfold lift, item. destruct (nth_error l i); discriminate.
Qed.

(** [read_data] always returns or raises. *)
Lemma read_data_no_fuel (s : bytes) : WFMFile.read_data s <> OutOfFuel.
Proof.
  unfold WFMFile.read_data. intros H.
  apply rbind_fuel in H as [H|(hd & s1 & _ & H)]; [now apply read_no_fuel in H|].
  apply rbind_fuel in H as [H|(mk & s2 & _ & H)]; [now apply read_no_fuel in H|].
  apply rbind_fuel in H as [H|(d & s3 & _ & H)]; [now apply read_no_fuel in H|].
  apply rbind_fuel in H as [H|(nd & s4 & _ & H)]; [now apply lift_int_no_fuel in H|].
  apply rbind_fuel in H as [H|(b & s5 & _ & H)]; [now apply read_no_fuel in H|].
  apply rbind_fuel in H as [H|(nb & s6 & _ & H)]; [now apply lift_int_no_fuel in H|].
  apply rbind_fuel in H as [H|(data & s7 & _ & H)].
  { apply read_records_fuel in H; [exact H|lia]. }
  apply rbind_fuel in H as [H|(rest & s8 & _ & H)]; [discriminate H|].
  apply rbind_fuel in H as [H|(c & s9 & _ & H)]; [now apply lift_item_no_fuel in H|].
  discriminate H.
Qed.

Lemma pack_fb_ok (x : float) (w : Z) :
  float_to_bits32 x = Ok w -> pack_fb x 0 = Ok (record_of w).
Proof.
  intros H. unfold pack_fb. rewrite H. reflexivity.
Qed.

Lemma write_items_ok (data : list float) : forall ws out,
  Forall2 (fun x w => float_to_bits32 x = Ok w) data ws ->
  WFMFile.write_items data out = (Ok tt, out ++ concat (map record_of ws)).
Proof.
  induction data as [|x data IH]; intros ws out H; inversion H; subst.
  - simpl. now rewrite app_nil_r.
  - cbn [WFMFile.write_items map concat]. unfold wseq, wlift.
    rewrite (pack_fb_ok x y) by assumption.
    rewrite (IH l'), <- app_assoc by assumption. reflexivity.
Qed.

(** Whatever happens, the bytes written so far are kept and only extended. *)
Lemma write_items_extends (data : list float) : forall out,
  exists body, snd (WFMFile.write_items data out) = out ++ body.
Proof.
  induction data as [|x data IH]; intros out.
  - exists []. simpl. now rewrite app_nil_r.
  - cbn [WFMFile.write_items]. unfold wseq, wlift.
    destruct (pack_fb x 0) as [b|e|].
    + destruct (IH (out ++ b)) as [body Hb].
      exists (b ++ body).
      destruct (WFMFile.write_items data (out ++ b)) as [[u|e|] o];
        simpl in *; subst; now rewrite <- app_assoc.
    + exists []. simpl. now rewrite app_nil_r.
    + exists []. simpl. now rewrite app_nil_r.
Qed.

Lemma write_data_ok (data : list float) (clock : float) (ws : list Z) :
  Forall2 (fun x w => float_to_bits32 x = Ok w) data ws ->
  WFMFile.write_data data clock []
  = (Ok tt, layout WFMFile.header (5 * len data) (map record_of ws) (trailer clock)).
Proof.
  intros H. unfold WFMFile.write_data, layout, trailer.
  unfold wseq at 1. unfold write at 1. cbn [app].
  unfold wseq at 1. unfold write at 1.
  unfold wseq. rewrite (write_items_ok data ws) by exact H.
  unfold write. f_equal.
  change ("#"%char :: ?a ++ ?b) with (["#"%char] ++ a ++ b).
  rewrite <- !app_assoc. reflexivity.
Qed.

Lemma held_words (data : list float) :
  Forall (fun x => exists w, float_to_bits32 x = Ok w /\ bits32_to_float w = x) data ->
  exists ws, Forall2 (fun x w => float_to_bits32 x = Ok w) data ws
             /\ map bits32_to_float ws = data
             /\ Forall (fun w => 0 <= w < 2 ^ 32) ws.
Proof.
  induction 1 as [|x data (w & Hw & Hx) _ (ws & H1 & H2 & H3)].
  - exists []. repeat split; constructor.
  - exists (w :: ws). repeat split.
    + constructor; assumption.
    + simpl. now rewrite Hx, H2.
    + constructor; [|assumption]. eapply float_to_bits32_range; eassumption.
Qed.

Lemma f32_exact_words (data : list float) :
  Forall f32_exact data ->
  exists ws, Forall2 (fun x w => float_to_bits32 x = Ok w) data ws
             /\ map bits32_to_float ws = data
             /\ Forall (fun w => 0 <= w < 2 ^ 32) ws.
Proof.
  intros H. apply held_words. eapply Forall_impl; [|exact H].
  intros x [_ Hx]. exact Hx.
Qed.

(** A NaN is packed and read back as a NaN. *)
Lemma nan_held :
  exists w, float_to_bits32 S754_nan = Ok w /\ bits32_to_float w = S754_nan.
Proof.
  exists 2143289344. split; reflexivity.
Qed.

Lemma records_shape (ws : list Z) : Forall (fun r => length r = 5%nat) (map record_of ws).
Proof.
  apply Forall_map, Forall_forall. intros w _. unfold record_of.
  now rewrite length_app, le_bytes_length.
Qed.

Lemma samples_of_records (ws : list Z) :
  Forall (fun w => 0 <= w < 2 ^ 32) ws ->
  map sample_of (map record_of ws) = map bits32_to_float ws.
Proof.
  intros H. rewrite map_map. apply map_ext_Forall.
  eapply Forall_impl; [|exact H]. intros w Hw. now apply sample_of_record_of.
Qed.

End Codec.

(** ** Formatting a clock rate *)
Section Format.

Lemma round_half_even_spec (n d : Z) :
  0 <= n -> 0 < d ->
  2 * Z.abs (n - round_half_even n d * d) <= d
  /\ n / d <= round_half_even n d <= n / d + 1.
Proof.
  intros Hn Hd. unfold round_half_even.
  pose proof (Z.div_mod n d ltac:(lia)) as E.
  pose proof (Z.mod_pos_bound n d Hd) as B.
  destruct (Z.compare_spec (2 * (n mod d)) d) as [Heq|Hlt|Hgt].
  - destruct (Z.even (n / d)); lia.
  - lia.
  - lia.
Qed.

Lemma scale_up_spec (fuel : nat) : forall num den k,
  0 < num -> 0 < den -> den <= num * 2 ^ Z.of_nat fuel ->
  exists j, 0 <= j
    /\ scale_up fuel num den k = (num * 10 ^ j, k - j)
    /\ den <= num * 10 ^ j
    /\ (num < den -> num * 10 ^ j < 10 * den)
    /\ (den <= num -> j = 0).
Proof.
  induction fuel as [|fuel IH]; intros num den k Hn Hd Hf.
  - exists 0. change (2 ^ Z.of_nat 0) with 1 in Hf.
    rewrite Z.pow_0_r, Z.mul_1_r, Z.sub_0_r. repeat split; lia.
  - cbn [scale_up]. destruct (Z.ltb_spec num den) as [Hlt|Hge].
    + rewrite Nat2Z.inj_succ, Z.pow_succ_r in Hf by lia.
      destruct (IH (10 * num) den (k - 1) ltac:(lia) Hd ltac:(lia))
        as (j & Hj & E & H1 & H2 & H3).
      exists (j + 1). rewrite Z.pow_add_r, Z.pow_1_r by lia.
      repeat split; try lia.
      * rewrite E. f_equal; lia.
      * intros _. destruct (Z_lt_ge_dec (10 * num) den) as [Hl|Hg].
        -- specialize (H2 Hl). lia.
        -- assert (j = 0) as -> by (apply H3; lia). rewrite Z.pow_0_r. lia.
    + exists 0. rewrite Z.pow_0_r, Z.mul_1_r, Z.sub_0_r. repeat split; lia.
Qed.

Lemma scale_down_spec (fuel : nat) : forall num den k,
  0 < den -> den <= num -> num < 10 * den * 2 ^ Z.of_nat fuel ->
  exists i, 0 <= i
    /\ scale_down fuel num den k = (den * 10 ^ i, k + i)
    /\ den * 10 ^ i <= num < 10 * (den * 10 ^ i).
Proof.
  induction fuel as [|fuel IH]; intros num den k Hd Hle Hf.
  - exists 0. change (2 ^ Z.of_nat 0) with 1 in Hf.
    rewrite Z.pow_0_r, Z.mul_1_r, Z.add_0_r. repeat split; lia.
  - cbn [scale_down]. destruct (Z.leb_spec (10 * den) num) as [Hge|Hlt].
    + rewrite Nat2Z.inj_succ, Z.pow_succ_r in Hf by lia.
      destruct (IH num (10 * den) (k + 1) ltac:(lia) Hge ltac:(lia))
        as (i & Hi & E & H1).
      exists (i + 1). rewrite Z.pow_add_r, Z.pow_1_r by lia.
      repeat split; try lia.
      rewrite E. f_equal; lia.
    + exists 0. rewrite Z.pow_0_r, Z.mul_1_r, Z.add_0_r. repeat split; lia.
Qed.

Lemma log2_pow_bound (n : Z) : 0 < n -> n < 2 ^ Z.of_nat (Z.to_nat (Z.log2 n + 1)).
Proof.
  intros H. pose proof (Z.log2_nonneg n).
  rewrite Z2Nat.id by lia. apply Z.log2_spec in H. lia.
Qed.

Lemma half_unit_rescale (n0 d0 q c P I A B : Z) :
  0 < I -> 0 < B -> 0 <= d0 -> 1 <= c ->
  c * A * I = P * B ->
  2 * Z.abs (n0 * P - (q * c) * (d0 * I)) <= d0 * I ->
  2 * Z.abs (n0 * A - q * d0 * B) <= d0 * B.
Proof.
  intros HI HB Hd Hc HP H.
  apply (Z.mul_le_mono_pos_l _ _ (c * I)); [lia|].
  replace (c * I * (2 * Z.abs (n0 * A - q * d0 * B)))
    with (2 * Z.abs ((n0 * P - (q * c) * (d0 * I)) * B)).
  - rewrite Z.abs_mul, (Z.abs_eq B) by lia.
    transitivity (d0 * I * B); [nia|]. nia.
  - assert (E : (n0 * P - q * c * (d0 * I)) * B = c * I * (n0 * A - q * d0 * B)).
    { transitivity (n0 * (P * B) - q * c * d0 * I * B); [ring|].
      rewrite <- HP. ring. }
    rewrite E, Z.abs_mul, (Z.abs_eq (c * I)) by lia. ring.
Qed.

(** The eleven digits and the exponent that [format_e10] prints. *)
Lemma sci_digits_spec (m e : Z) :
  0 < m ->
  10 ^ 10 <= fst (sci_digits m e) < 10 ^ 11
  /\ within_half_unit m e (fst (sci_digits m e)) (snd (sci_digits m e)).
Proof.
  intros Hm. unfold sci_digits, within_half_unit.
  set (num0 := m * 2 ^ Z.max e 0). set (den0 := 2 ^ Z.max (- e) 0).
  assert (Hn0 : 0 < num0).
  { apply Z.mul_pos_pos; [exact Hm|]. apply Z.pow_pos_nonneg; lia. }
  assert (Hd0 : 0 < den0) by (apply Z.pow_pos_nonneg; lia).
  destruct (scale_up_spec (Z.to_nat (Z.log2 den0 + 1)) num0 den0 0 Hn0 Hd0)
    as (j & Hj & E1 & U1 & U2 & U3).
  { pose proof (log2_pow_bound den0 Hd0). nia. }
  rewrite E1. set (num := num0 * 10 ^ j) in *.
  assert (Hpj : 0 < 10 ^ j) by (apply Z.pow_pos_nonneg; lia).
  assert (Hnum : 0 < num) by (unfold num; nia).
  destruct (scale_down_spec (Z.to_nat (Z.log2 num + 1)) num den0 (0 - j) Hd0 U1)
    as (i & Hi & E2 & D1).
  { pose proof (log2_pow_bound num Hnum). nia. }
  rewrite E2. set (den := den0 * 10 ^ i) in *.
  assert (Hpi : 0 < 10 ^ i) by (apply Z.pow_pos_nonneg; lia).
  assert (Hden : 0 < den) by (unfold den; nia).
  assert (P10 : 10 ^ 10 = 10000000000) by reflexivity.
  assert (P11 : 10 ^ 11 = 100000000000) by reflexivity.
  destruct (round_half_even_spec (num * 10 ^ 10) den ltac:(lia) Hden) as [R1 R2].
  set (q0 := round_half_even (num * 10 ^ 10) den) in *.
  assert (Q1 : 10 ^ 10 <= num * 10 ^ 10 / den).
  { apply Z.div_le_lower_bound; [exact Hden|]. nia. }
  assert (Q2 : num * 10 ^ 10 / den < 10 ^ 11).
  { apply Z.div_lt_upper_bound; [exact Hden|]. nia. }
  destruct (Z.eqb_spec q0 (10 ^ 11)) as [Hc|Hc]; cbn [fst snd].
  - split; [lia|].
    set (a := Z.max (10 - (0 - j + i + 1)) 0). set (b := Z.max (0 - j + i + 1 - 10) 0).
    assert (Hb : 0 < 10 ^ b) by (apply Z.pow_pos_nonneg; lia).
    assert (HP : 10 * 10 ^ a * 10 ^ i = 10 ^ j * 10 ^ 10 * 10 ^ b).
    { replace 10 with (10 ^ 1) at 1 by reflexivity.
      rewrite <- !Z.pow_add_r by lia. f_equal. lia. }
    apply (half_unit_rescale num0 den0 (10 ^ 10) 10 (10 ^ j * 10 ^ 10) (10 ^ i)
             (10 ^ a) (10 ^ b) Hpi Hb ltac:(lia) ltac:(lia) HP).
    replace (10 ^ 10 * 10) with q0 by (rewrite Hc; reflexivity).
    replace (num0 * (10 ^ j * 10 ^ 10)) with (num * 10 ^ 10) by (unfold num; ring).
    exact R1.
  - split; [lia|].
    set (a := Z.max (10 - (0 - j + i)) 0). set (b := Z.max (0 - j + i - 10) 0).
    assert (Hb : 0 < 10 ^ b) by (apply Z.pow_pos_nonneg; lia).
    assert (HP : 1 * 10 ^ a * 10 ^ i = 10 ^ j * 10 ^ 10 * 10 ^ b).
    { rewrite Z.mul_1_l, <- !Z.pow_add_r by lia. f_equal. lia. }
    apply (half_unit_rescale num0 den0 q0 1 (10 ^ j * 10 ^ 10) (10 ^ i)
             (10 ^ a) (10 ^ b) Hpi Hb ltac:(lia) ltac:(lia) HP).
    rewrite Z.mul_1_r.
    replace (num0 * (10 ^ j * 10 ^ 10)) with (num * 10 ^ 10) by (unfold num; ring).
    exact R1.
Qed.

Lemma fixed_digits_length (w : nat) : forall n, length (fixed_digits w n) = w.
Proof.
  induction w as [|w IH]; intros n; [reflexivity|].
  cbn [fixed_digits]. rewrite length_app, IH. simpl. lia.
Qed.

Lemma fixed_digits_digits (w : nat) : forall n,
  Forall (fun c => is_digit c = true) (fixed_digits w n).
Proof.
  induction w as [|w IH]; intros n; [constructor|].
  cbn [fixed_digits]. apply Forall_app. split; [apply IH|].
  constructor; [|constructor].
  apply is_digit_digit_char, Z.mod_pos_bound. lia.
Qed.

Lemma zfill2_digits (n : Z) :
  0 <= n -> Forall (fun c => is_digit c = true) (zfill2 n) /\ (2 <= length (zfill2 n))%nat.
Proof.
  intros Hn. unfold zfill2. destruct (Z.ltb_spec n 10) as [Hlt|Hge].
  - rewrite str_nonneg_small by lia. split; [|simpl; lia].
    constructor; [reflexivity|]. constructor; [|constructor].
    apply is_digit_digit_char. lia.
  - split; [apply str_nonneg_digits; exact Hn|].
    pose proof (len_str_int_gt n 1 ltac:(lia) ltac:(simpl; lia)) as H.
    rewrite str_int_nonneg in H by exact Hn. unfold len in H. lia.
Qed.

Lemma digits_forallb (s : bytes) :
  Forall (fun c => is_digit c = true) s -> forallb is_digit s = true.
Proof.
  intros H. apply forallb_forall. now apply Forall_forall.
Qed.

Lemma is_digit_not_minus (c : ascii) : is_digit c = true -> Ascii.eqb c "-" = false.
Proof.
  intros H. destruct (Ascii.eqb_spec c "-") as [->|]; [discriminate H|reflexivity].
Qed.

Lemma render_sci_shape (s : bool) (q k : Z) :
  10 ^ 10 <= q < 10 ^ 11 -> is_sci10 (sign_str s ++ render_sci (q, k)) = true.
Proof.
  intros Hq. unfold render_sci.
  assert (Hd : 1 <= q / 10 ^ 10 < 10).
  { split.
    - apply Z.div_le_lower_bound; [reflexivity|]. lia.
    - apply Z.div_lt_upper_bound; [reflexivity|]. lia. }
  rewrite str_nonneg_small by lia.
  set (d := digit_char (q / 10 ^ 10)).
  assert (Hdd : is_digit d = true) by (apply is_digit_digit_char; lia).
  set (F := fixed_digits 10 (q mod 10 ^ 10)).
  set (sg := if k <? 0 then "-"%char else "+"%char).
  destruct (zfill2_digits (Z.abs k) (Z.abs_nonneg k)) as [Hz1 Hz2].
  set (X := zfill2 (Z.abs k)) in *.
  assert (Ht : is_sci10 (d :: "."%char :: F ++ "e"%char :: sg :: X) = true).
  { assert (HF : length F = 10%nat) by apply fixed_digits_length.
    assert (E1 : forall Y, firstn 10 (F ++ Y) = F).
    { intros Y. rewrite firstn_app, HF, Nat.sub_diag, firstn_all2 by lia.
      apply app_nil_r. }
    assert (E2 : forall Y, skipn 10 (F ++ Y) = Y).
    { intros Y. rewrite skipn_app, HF, Nat.sub_diag, skipn_all2 by lia.
      reflexivity. }
    unfold is_sci10. rewrite (is_digit_not_minus d Hdd), Hdd, E1, E2, HF.
    rewrite (digits_forallb F) by apply fixed_digits_digits.
    rewrite (digits_forallb X Hz1).
    assert ((2 <=? length X)%nat = true) as -> by (apply Nat.leb_le; exact Hz2).
    unfold sg. destruct (k <? 0); reflexivity. }
  destruct s; [|exact Ht].
  cbn [sign_str app]. unfold is_sci10 in *.
  change (Ascii.eqb "-" "-") with true. cbv iota.
  rewrite (is_digit_not_minus d Hdd) in Ht. exact Ht.
Qed.

(** A finite clock rate is printed in scientific notation. *)
Lemma format_e10_shape (x : float) : is_finite x = true -> is_sci10 (format_e10 x) = true.
Proof.
  destruct x as [s|s| |s m e]; try discriminate; intros _.
  - destruct s; reflexivity.
  - cbn [format_e10].
    destruct (sci_digits_spec (Z.pos m) e ltac:(lia)) as [Hq _].
    destruct (sci_digits (Z.pos m) e) as [q k]. now apply render_sci_shape.
Qed.

Lemma render_sci_printable (q k : Z) : 0 <= q -> Forall printable (render_sci (q, k)).
Proof.
  intros Hq. unfold render_sci.
  apply Forall_app. split.
  - eapply Forall_impl; [|apply str_nonneg_digits].
    + intros c. apply is_digit_not_space.
    + apply Z.div_pos; [exact Hq|reflexivity].
  - constructor; [reflexivity|]. apply Forall_app. split.
    + eapply Forall_impl; [|apply fixed_digits_digits]. intros c. apply is_digit_not_space.
    + constructor; [reflexivity|].
      constructor; [destruct (k <? 0); reflexivity|].
      eapply Forall_impl; [|apply zfill2_digits, Z.abs_nonneg].
      intros c. apply is_digit_not_space.
Qed.

(** Whatever the clock rate, its text is one non-empty word. *)
Lemma format_e10_word (x : float) : format_e10 x <> [] /\ Forall printable (format_e10 x).
Proof.
  destruct x as [s|s| |s m e].
  - destruct s; split; try discriminate; repeat constructor.
  - destruct s; split; try discriminate; repeat constructor.
  - split; [discriminate|repeat constructor].
  - cbn [format_e10].
    destruct (sci_digits_spec (Z.pos m) e ltac:(lia)) as [Hq _].
    destruct (sci_digits (Z.pos m) e) as [q k]. cbn [fst] in Hq.
    assert (P10 : 10 ^ 10 = 10000000000) by reflexivity.
    pose proof (render_sci_printable q k ltac:(lia)) as Hp.
    split.
    + unfold render_sci. intros E. apply app_eq_nil in E as [_ E].
      apply app_eq_nil in E as [E _].
      revert E. apply str_nonneg_nonempty.
      apply Z.div_pos; [lia|reflexivity].
    + apply Forall_app. split; [destruct s; repeat constructor|exact Hp].
Qed.

End Format.

(** ** Round trip *)
Section RoundTrip.

Lemma format_e10_close (clock : float) : clock_text_close clock (format_e10 clock).
Proof.
  destruct clock as [s|s| |s m e]; try reflexivity.
  cbn [clock_text_close format_e10].
  destruct (sci_digits_spec (Z.pos m) e ltac:(lia)) as [Hq Hw].
  destruct (sci_digits (Z.pos m) e) as [q k]. now exists q, k.
Qed.

Lemma item_split_trailer (clock : float) :
  item (split (trailer clock)) 1 = Ok (format_e10 clock).
Proof.
  unfold trailer. destruct (format_e10_word clock) as [Hne Hp].
  rewrite split_trailer by assumption. reflexivity.
Qed.

Lemma f32_exact_one : f32_exact one.
Proof.
  split; [discriminate|]. exists 1065353216. split; reflexivity.
Qed.

Lemma len_long_series : len long_series = 200000000.
Proof.
  unfold len, long_series. rewrite repeat_length. apply Z2Nat.id. lia.
Qed.

Lemma Forall2_repeat {A B} (R : A -> B -> Prop) (a : A) (b : B) (n : nat) :
  R a b -> Forall2 R (repeat a n) (repeat b n).
Proof.
  intros H. induction n; simpl; constructor; assumption.
Qed.

Lemma long_series_nonempty : long_series <> [].
Proof.
  intros E. pose proof len_long_series as H. rewrite E in H. discriminate H.
Qed.

(** A file whose digit count reads 1 and whose length reads 0 holds no
    sample for [read_data], whatever follows. *)
Lemma read_data_zero_length (h rest : bytes) :
  length h = 12%nat ->
  WFMFile.read_data (h ++ lit "#10" ++ rest)
  = match item (split rest) 1 with
    | Ok c => Ok (([], c), [])
    | Raise e => Raise e
    | OutOfFuel => OutOfFuel
    end.
Proof.
  intros Hh. unfold WFMFile.read_data.
  unfold rbind at 1. rewrite (read_app_n 12 h) by (unfold len; lia).
  change (lit "#10" ++ rest) with ("#"%char :: "1"%char :: "0"%char :: rest).
  unfold rbind at 1. change (read 1 ("#"%char :: ?x)) with (Ok (["#"%char], x)).
  unfold rbind at 1. change (read 1 ("1"%char :: ?x)) with (Ok (["1"%char], x)).
  unfold rbind at 1. change (int ["1"%char]) with (Ok 1). cbn [lift].
  unfold rbind at 1. change (read 1 ("0"%char :: ?x)) with (Ok (["0"%char], x)).
  unfold rbind at 1. change (int ["0"%char]) with (Ok 0). cbn [lift].
  unfold rbind at 1. change (WFMFile.read_records (Z.to_nat 0) 0 0 [] rest) with (Ok (@nil float, rest)).
  unfold rbind at 1, read_all. unfold rbind, lift, rret.
  destruct (item (split rest) 1); reflexivity.
Qed.

Lemma write_long_series (clock : float) :
  WFMFile.write_data long_series clock []
  = (Ok tt, WFMFile.header ++ lit "#10" ++ lit "1000000000"
            ++ concat (map record_of (repeat 1065353216 (Z.to_nat 200000000)))
            ++ trailer clock).
Proof.
  rewrite (write_data_ok long_series clock (repeat 1065353216 (Z.to_nat 200000000))).
  - unfold layout. rewrite len_long_series.
    change (5 * 200000000) with 1000000000.
    change (str_int 1000000000) with (lit "1000000000").
    change (len (lit "1000000000")) with 10.
    change (str_int 10) with (lit "10"). reflexivity.
  - apply Forall2_repeat. reflexivity.
Qed.

End RoundTrip.

(** C1 (as the code has it). A series of fewer than 200,000,000 samples
    that binary32 holds exactly, a NaN among them or not, is written without
    error, and reading the written bytes back gives the same samples in the
    same order, a NaN for a NaN, together with the text of the clock rate.
    For a finite clock rate this text shows eleven digits, which are the
    clock rate to within half a unit of the tenth digit after the point; for
    an infinite clock rate or a NaN it is [inf], [-inf] or [nan]
    ([clock_text_close]). The series of the code holds no markers. *)
Theorem roundtrip_below_length_ceiling (data : list float) (clock : float) :
  Forall (fun x => f32_exact x \/ x = S754_nan) data ->
  5 * len data < 10 ^ 9 ->
  exists out,
    WFMFile.write_data data clock [] = (Ok tt, out)
    /\ WFMFile.read_data out = Ok ((data, format_e10 clock), [])
    /\ clock_text_close clock (format_e10 clock).
Proof.
  intros Hex Hlen.
  assert (Hheld : Forall (fun x => exists w, float_to_bits32 x = Ok w
                                             /\ bits32_to_float w = x) data).
  { eapply Forall_impl; [|exact Hex].
    intros x [[_ Hx]| ->]; [exact Hx|exact nan_held]. }
  destruct (held_words data Hheld) as (ws & Hws & Hdata & Hrange).
  exists (layout WFMFile.header (5 * len data) (map record_of ws) (trailer clock)).
  assert (Hl : len ws = len data).
  { unfold len. f_equal. symmetry. eapply Forall2_length; eassumption. }
  pose proof (len_nonneg data).
  split; [now apply write_data_ok|]. split; [|apply format_e10_close].
  rewrite read_data_layout.
  - rewrite item_split_trailer, samples_of_records, Hdata by assumption. reflexivity.
  - reflexivity.
  - lia.
  - apply records_shape.
  - rewrite len_map. lia.
  - rewrite len_map. lia.
Qed.

Lemma roundtrip_witness :
  exists out,
    WFMFile.write_data [one; S754_nan] one [] = (Ok tt, out)
    /\ WFMFile.read_data out = Ok (([one; S754_nan], format_e10 one), [])
    /\ clock_text_close one (format_e10 one).
Proof.
  apply (roundtrip_below_length_ceiling [one; S754_nan] one).
  - constructor; [|constructor; [|constructor]].
    + left. split; [discriminate|]. exists 1065353216. split; reflexivity.
    + right. reflexivity.
  - reflexivity.
Defined.

(** C1 fails on the code for a series of 200,000,000 samples: the written
    length field is [#101000000000], which [read_data] reads as a length of
    0, so that it returns no sample. *)
Lemma roundtrip_fails_at_length_ceiling :
  Forall f32_exact long_series
  /\ exists out,
       WFMFile.write_data long_series one [] = (Ok tt, out)
       /\ ~ exists c rest, WFMFile.read_data out = Ok ((long_series, c), rest).
Proof.
  split.
  - unfold long_series. apply Forall_forall. intros x Hx.
    apply repeat_spec in Hx. subst x. apply f32_exact_one.
  - eexists. split; [apply write_long_series|].
    intros (c & rest & H).
    rewrite read_data_zero_length in H by reflexivity.
    destruct (item _ 1) as [c0|e|]; [|discriminate H|discriminate H].
    injection H as H _ _. symmetry in H. now apply long_series_nonempty in H.
Qed.

(** ** The length field *)
Section LengthField.

(** The header and the length field are written before anything can fail. *)
Lemma write_data_prefix (data : list float) (clock : float) :
  exists r tail,
    WFMFile.write_data data clock []
    = (r, WFMFile.header ++ "#"%char :: str_int (len (str_int (5 * len data)))
                         ++ str_int (5 * len data) ++ tail).
Proof.
  unfold WFMFile.write_data.
  unfold wseq at 1. unfold write at 1. cbn [app].
  unfold wseq at 1. unfold write at 1.
  set (pre := WFMFile.header ++ "#"%char :: _ ++ _).
  destruct (write_items_extends data pre) as [body Hb].
  unfold wseq, write.
  destruct (WFMFile.write_items data pre) as [[u|e|] o]; cbn [snd] in Hb; subst o.
  - exists (Ok tt), (body ++ lit "CLOCK " ++ format_e10 clock ++ [LF]).
    f_equal. unfold pre. cbn [app]. rewrite <- !app_assoc. cbn [app].
    rewrite <- !app_assoc. reflexivity.
  - exists (Raise e), body. f_equal. unfold pre. cbn [app].
    rewrite <- !app_assoc. cbn [app]. rewrite <- !app_assoc. reflexivity.
  - exists OutOfFuel, body. f_equal. unfold pre. cbn [app].
    rewrite <- !app_assoc. cbn [app]. rewrite <- !app_assoc. reflexivity.
Qed.

Lemma packable_words (data : list float) :
  Forall packable data ->
  exists ws, Forall2 (fun x w => float_to_bits32 x = Ok w) data ws.
Proof.
  induction 1 as [|x data [w Hw] _ [ws Hws]].
  - exists []. constructor.
  - exists (w :: ws). constructor; assumption.
Qed.

End LengthField.

(** C2 (as the code has it). When the body takes 1,000,000,000 bytes or
    more, [write_data] raises nothing on that account: the digit count it
    writes after [#] is 10 or more, hence two characters or more, and the
    byte count follows it. *)
Theorem encode_length_field_unbounded (data : list float) (clock : float) :
  10 ^ 9 <= 5 * len data ->
  10 <= len (str_int (5 * len data))
  /\ 2 <= len (str_int (len (str_int (5 * len data))))
  /\ (exists r tail,
        WFMFile.write_data data clock []
        = (r, WFMFile.header ++ "#"%char :: str_int (len (str_int (5 * len data)))
                             ++ str_int (5 * len data) ++ tail))
  /\ (Forall packable data -> fst (WFMFile.write_data data clock []) = Ok tt).
Proof.
  intros H.
  pose proof (len_str_int_gt (5 * len data) 9 ltac:(lia) H) as Hd.
  split; [lia|]. split.
  - pose proof (len_str_int_gt (len (str_int (5 * len data))) 1 ltac:(lia)) as H2.
    change (10 ^ 1) with 10 in H2. lia.
  - split; [apply write_data_prefix|].
    intros Hp. destruct (packable_words data Hp) as [ws Hws].
    now rewrite (write_data_ok data clock ws Hws).
Qed.

Lemma encode_length_field_unbounded_witness :
  10 <= len (str_int (5 * len long_series))
  /\ 2 <= len (str_int (len (str_int (5 * len long_series))))
  /\ (exists r tail,
        WFMFile.write_data long_series one []
        = (r, WFMFile.header ++ "#"%char :: str_int (len (str_int (5 * len long_series)))
                             ++ str_int (5 * len long_series) ++ tail))
  /\ (Forall packable long_series -> fst (WFMFile.write_data long_series one []) = Ok tt).
Proof.
  apply (encode_length_field_unbounded long_series one).
  rewrite len_long_series. vm_compute. discriminate.
Defined.

(** C2 fails on the code: for 200,000,000 samples [write_data] returns
    normally, having written the two-character digit count [10]. *)
Lemma encode_accepts_ten_digit_length :
  fst (WFMFile.write_data long_series one []) = Ok tt
  /\ exists tail,
       snd (WFMFile.write_data long_series one [])
       = WFMFile.header ++ lit "#10" ++ lit "1000000000" ++ tail.
Proof.
  rewrite write_long_series. split; [reflexivity|].
  eexists. reflexivity.
Qed.

(** C3 (as the code has it). [read_data] reads the first 12 bytes and does
    not look at them: two inputs that differ only in these bytes give the
    same result. *)
Theorem decode_ignores_header (h1 h2 rest : bytes) :
  length h1 = 12%nat -> length h2 = 12%nat ->
  WFMFile.read_data (h1 ++ rest) = WFMFile.read_data (h2 ++ rest).
Proof.
  intros H1 H2. unfold WFMFile.read_data.
  unfold rbind at 1. rewrite (read_app_n 12 h1) by (unfold len; lia).
  symmetry. unfold rbind at 1. rewrite (read_app_n 12 h2) by (unfold len; lia).
  reflexivity.
Qed.

Lemma decode_ignores_header_witness :
  WFMFile.read_data (WFMFile.header ++ lit "#10CLOCK 1")
  = WFMFile.read_data (lit "NOT A HEADER" ++ lit "#10CLOCK 1").
Proof.
  apply (decode_ignores_header WFMFile.header (lit "NOT A HEADER") (lit "#10CLOCK 1"));
    reflexivity.
Defined.

(** C3 fails on the code: a file that starts with twelve other bytes is
    read to its end and its sample returned. *)
Lemma decode_accepts_bad_magic :
  firstn 12 bad_magic_file <> WFMFile.header
  /\ WFMFile.read_data bad_magic_file = Ok (([one], format_e10 one), []).
Proof.
  split; [vm_compute; discriminate|vm_compute; reflexivity].
Qed.

(** C4 (as the code has it). [write_data] takes no marker: the fifth byte
    of every record it writes is 0. [read_data] returns no marker: files
    that agree on the first four bytes of every record give the same
    result. *)
Theorem marker_written_zero_and_ignored
  (data : list float) (clock : float) (ws : list Z)
  (h : bytes) (recs recs' : list bytes) (tail : bytes) :
  Forall2 (fun x w => float_to_bits32 x = Ok w) data ws ->
  length h = 12%nat ->
  5 * len recs < 10 ^ 9 ->
  Forall2 (fun r r' => length r = 5%nat /\ length r' = 5%nat
                       /\ firstn 4 r = firstn 4 r') recs recs' ->
  WFMFile.write_data data clock []
  = (Ok tt, layout WFMFile.header (5 * len data)
              (map (fun w => le_bytes 4 w ++ [chr 0]) ws) (trailer clock))
  /\ WFMFile.read_data (layout h (5 * len recs) recs tail)
     = WFMFile.read_data (layout h (5 * len recs') recs' tail).
Proof.
  intros Hws Hh Hlen Hrr. split; [now apply write_data_ok|].
  assert (Hl : len recs' = len recs).
  { unfold len. f_equal. symmetry. eapply Forall2_length; eassumption. }
  assert (Hs : map sample_of recs = map sample_of recs').
  { clear Hl Hlen. induction Hrr as [|r r' recs recs' (_ & _ & E) _ IH]; [reflexivity|].
    cbn [map]. unfold sample_of at 1 3. now rewrite E, IH. }
  assert (H5 : Forall (fun r => length r = 5%nat) recs
               /\ Forall (fun r => length r = 5%nat) recs').
  { clear Hl Hlen Hs.
    induction Hrr as [|r r' recs recs' (E1 & E2 & _) _ [IH1 IH2]];
      split; constructor; assumption. }
  destruct H5 as [H5 H5'].
  pose proof (len_nonneg recs).
  rewrite !read_data_layout; try lia; try assumption.
  now rewrite Hs.
Qed.

Lemma marker_written_zero_and_ignored_witness :
  WFMFile.write_data [one] one []
  = (Ok tt, layout WFMFile.header (5 * len [one])
              (map (fun w => le_bytes 4 w ++ [chr 0]) [1065353216]) (trailer one))
  /\ WFMFile.read_data
       (layout WFMFile.header (5 * len [le_bytes 4 1065353216 ++ [chr 3]])
          [le_bytes 4 1065353216 ++ [chr 3]] (trailer one))
     = WFMFile.read_data
         (layout WFMFile.header (5 * len [le_bytes 4 1065353216 ++ [chr 128]])
            [le_bytes 4 1065353216 ++ [chr 128]] (trailer one)).
Proof.
  apply (marker_written_zero_and_ignored [one] one [1065353216] WFMFile.header
           [le_bytes 4 1065353216 ++ [chr 3]] [le_bytes 4 1065353216 ++ [chr 128]]
           (trailer one)).
  - repeat constructor.
  - reflexivity.
  - reflexivity.
  - repeat constructor.
Defined.

(** C4 fails on the code: the files with marker bytes 3 and 128 differ
    from the file with marker byte 0 and are read to the same result, and
    the file written for the sample is the one with marker byte 0. *)
Lemma marker_bits_lost :
  marked_file 3 <> marked_file 0
  /\ WFMFile.read_data (marked_file 3) = WFMFile.read_data (marked_file 0)
  /\ WFMFile.read_data (marked_file 128) = WFMFile.read_data (marked_file 0)
  /\ WFMFile.read_data (marked_file 3) = Ok (([one], format_e10 one), [])
  /\ WFMFile.write_data [one] one [] = (Ok tt, marked_file 0).
Proof.
  repeat split; try (vm_compute; reflexivity). vm_compute. discriminate.
Qed.

(** C5 (as the code has it). [read_data] does not test the byte count: when
    it is not a multiple of 5 and the input holds the records, the loop takes
    [num_bytes / 5 + 1] whole records, more bytes than the count declares,
    and the samples are returned. *)
Theorem decode_reads_whole_records
  (h : bytes) (nb : Z) (recs : list bytes) (tail c : bytes) :
  length h = 12%nat ->
  0 <= nb < 10 ^ 9 ->
  nb mod 5 <> 0 ->
  len recs = nb / 5 + 1 ->
  Forall (fun r => length r = 5%nat) recs ->
  item (split tail) 1 = Ok c ->
  WFMFile.read_data (layout h nb recs tail) = Ok ((map sample_of recs, c), [])
  /\ nb < len (concat recs).
Proof.
  intros Hh Hnb Hmis Hn Hrecs Hc.
  pose proof (Z.div_mod nb 5 ltac:(lia)) as E.
  pose proof (Z.mod_pos_bound nb 5 ltac:(lia)) as B.
  split.
  - rewrite read_data_layout, Hc; try assumption; try lia. reflexivity.
  - assert (Hlen : len (concat recs) = 5 * len recs).
    { clear -Hrecs. induction Hrecs as [|r recs Hr _ IH]; [reflexivity|].
      cbn [concat]. rewrite len_cons. unfold len in *. rewrite length_app. lia. }
    lia.
Qed.

Lemma decode_reads_whole_records_witness :
  WFMFile.read_data misaligned_file
  = Ok ((map sample_of [record_of 1065353216; record_of 1065353216], format_e10 one), [])
  /\ 7 < len (concat [record_of 1065353216; record_of 1065353216]).
Proof.
  apply (decode_reads_whole_records WFMFile.header 7
           [record_of 1065353216; record_of 1065353216] (trailer one) (format_e10 one)).
  - reflexivity.
  - vm_compute. split; [discriminate|reflexivity].
  - vm_compute. discriminate.
  - reflexivity.
  - repeat constructor.
  - vm_compute. reflexivity.
Defined.

(** C5 fails on the code: a file that declares 7 bytes is read without
    error; two records, 10 bytes, are taken from it. *)
Lemma decode_accepts_misaligned_length :
  7 mod 5 <> 0
  /\ WFMFile.read_data misaligned_file = Ok (([one; one], format_e10 one), []).
Proof.
  split; [vm_compute; discriminate|vm_compute; reflexivity].
Qed.

(** C6. The digit count that [write_data] writes after [#] is the number of
    decimal digits of the byte count [5 * len(data)]: it is at least 1, the
    byte count is below [10^count], and unless the count is 1 the byte count
    is at least [10^(count-1)]. For byte counts 0, 5, 45, 495 and 5000 the
    digit counts are 1, 1, 2, 3 and 4. *)
Theorem digit_count_field (data : list float) (clock : float) :
  let nb := 5 * len data in
  let nd := len (str_int nb) in
  (exists r tail,
     WFMFile.write_data data clock []
     = (r, WFMFile.header ++ "#"%char :: str_int nd ++ str_int nb ++ tail))
  /\ 1 <= nd
  /\ nb < 10 ^ nd
  /\ (nd = 1 \/ 10 ^ (nd - 1) <= nb)
  /\ map (fun n => 5 * len (repeat one n)) [0; 1; 9; 99; 1000]%nat
     = [0; 5; 45; 495; 5000]
  /\ map (fun n => str_int (len (str_int (5 * len (repeat one n)))))
       [0; 1; 9; 99; 1000]%nat
     = [lit "1"; lit "1"; lit "2"; lit "3"; lit "4"].
Proof.
  intros nb nd. split; [apply write_data_prefix|].
  assert (Hnb : 0 <= nb) by (unfold nb, len; lia).
  unfold nd. rewrite str_int_nonneg by exact Hnb.
  destruct (len_str_nonneg nb Hnb) as (H1 & H2 & H3).
  split; [exact H1|]. split; [exact H2|]. split; [|split].
  - destruct (Z.eq_dec (len (str_nonneg nb)) 1) as [E|E]; [now left|right].
    apply H3. lia.
  - vm_compute. reflexivity.
  - vm_compute. reflexivity.
Qed.

(** ** The trailer *)
Section Trailer.

Lemma printable_not_CR (s : bytes) : Forall printable s -> ~ In CR s.
Proof.
  intros H Hin. rewrite Forall_forall in H. specialize (H CR Hin). discriminate H.
Qed.

Lemma trailer_no_CR (clock : float) : ~ In CR (trailer clock).
Proof.
  unfold trailer. intros H.
  apply in_app_or in H as [H|H].
  - cbn in H. repeat (destruct H as [H|H]; [discriminate H|]). exact H.
  - apply in_app_or in H as [H|H].
    + revert H. apply printable_not_CR, format_e10_word.
    + destruct H as [H|[]]. discriminate H.
Qed.

End Trailer.

(** C7 (as the code has it). For a series whose samples can all be
    packed, what [write_data] writes after the body is [CLOCK ], the text of
    the clock rate and one line feed; no carriage return is written. The
    text of a finite clock rate is scientific notation with ten digits after
    the point and a signed exponent; that of an infinite clock rate is [inf]
    or [-inf], and that of a NaN is [nan]. *)
Theorem trailer_format_by_clock (data : list float) (clock : float) (ws : list Z) :
  Forall2 (fun x w => float_to_bits32 x = Ok w) data ws ->
  WFMFile.write_data data clock []
  = (Ok tt, (WFMFile.header
             ++ "#"%char :: str_int (len (str_int (5 * len data)))
             ++ str_int (5 * len data) ++ concat (map record_of ws))
            ++ lit "CLOCK " ++ format_e10 clock ++ [LF])
  /\ ~ In CR (lit "CLOCK " ++ format_e10 clock ++ [LF])
  /\ match clock with
     | S754_nan => format_e10 clock = lit "nan"
     | S754_infinity true => format_e10 clock = lit "-inf"
     | S754_infinity false => format_e10 clock = lit "inf"
     | S754_zero _ | S754_finite _ _ _ => is_sci10 (format_e10 clock) = true
     end.
Proof.
  intros Hws. split; [|split].
  - rewrite (write_data_ok data clock ws Hws). unfold layout, trailer.
    f_equal. rewrite <- !app_assoc. cbn [app]. rewrite <- !app_assoc. reflexivity.
  - apply trailer_no_CR.
  - destruct clock as [s|[|]| |s m e]; try reflexivity; now apply format_e10_shape.
Qed.

Lemma trailer_format_by_clock_witness :
  WFMFile.write_data [one] one []
  = (Ok tt, (WFMFile.header
             ++ "#"%char :: str_int (len (str_int (5 * len [one])))
             ++ str_int (5 * len [one]) ++ concat (map record_of [1065353216]))
            ++ lit "CLOCK " ++ format_e10 one ++ [LF])
  /\ ~ In CR (lit "CLOCK " ++ format_e10 one ++ [LF])
  /\ is_sci10 (format_e10 one) = true.
Proof.
  apply (trailer_format_by_clock [one] one [1065353216]).
  repeat constructor.
Defined.

(** C7 fails on the code for an infinite clock rate: the trailer is
    [CLOCK inf], which is not scientific notation. *)
Lemma trailer_of_infinite_clock :
  WFMFile.write_data [] (S754_infinity false) []
  = (Ok tt, WFMFile.header ++ lit "#10" ++ lit "CLOCK inf" ++ [LF])
  /\ is_sci10 (lit "inf") = false.
Proof.
  split; vm_compute; reflexivity.
Qed.

(** ** The text reader *)
Section TextReader.

Lemma span_line_app (l rest : bytes) :
  ~ In LF l -> span_line (l ++ LF :: rest) = (l ++ [LF], rest).
Proof.
  induction l as [|c l IH]; intros H.
  - reflexivity.
  - cbn [app span_line]. destruct (Ascii.eqb_spec c LF) as [->|Hc].
    + exfalso. apply H. now left.
    + rewrite IH; [reflexivity|]. intros Hin. apply H. now right.
Qed.

(** With room for the array, [numpy.fromstring] returns one. *)
Lemma np_fromstring_ok (fresh : memory) (s : bytes) (count : Z) :
  0 <= count <= MAX_DOUBLES -> count <= room fresh ->
  np_fromstring fresh s count
  = Ok (firstn (Z.to_nat count) (parse_floats (split s))
        ++ map (slot fresh) (seq (length (parse_floats (split s)))
                               (Z.to_nat count - length (parse_floats (split s))))).
Proof.
  unfold np_fromstring. intros H1 H2.
  destruct (Z.ltb_spec count (- SSIZE_MAX - 1)); [unfold MAX_DOUBLES, SSIZE_MAX in *; lia|].
  destruct (Z.ltb_spec SSIZE_MAX count); [unfold MAX_DOUBLES, SSIZE_MAX in *; lia|].
  cbn [orb].
  destruct (Z.ltb_spec count 0); [lia|].
  destruct (Z.ltb_spec MAX_DOUBLES count); [lia|].
  destruct (Z.ltb_spec (room fresh) count); [lia|]. reflexivity.
Qed.

(** An array that is returned for a count has as many entries, whatever
    was found in the text. *)
Lemma np_fromstring_padded (fresh : memory) (s : bytes) (count : Z) (data : list float) :
  np_fromstring fresh s count = Ok data -> 0 <= count ->
  data = firstn (Z.to_nat count) (parse_floats (split s))
         ++ map (slot fresh) (seq (length (parse_floats (split s)))
                                (Z.to_nat count - length (parse_floats (split s)))).
Proof.
  unfold np_fromstring. intros H Hc.
  destruct (_ || _); [discriminate H|].
  destruct (Z.ltb_spec count 0); [lia|].
  destruct (MAX_DOUBLES <? count); [discriminate H|].
  destruct (room fresh <? count); [discriminate H|].
  now injection H as <-.
Qed.

Lemma len_np_fromstring (fresh : memory) (s : bytes) (count : Z) (data : list float) :
  np_fromstring fresh s count = Ok data -> 0 <= count -> len data = count.
Proof.
  intros H Hc. rewrite (np_fromstring_padded _ _ _ _ H Hc). unfold len.
  rewrite length_app, length_firstn, length_map, length_seq. lia.
Qed.

Lemma np_fromstring_prefix (fresh : memory) (s : bytes) (count : Z) (data : list float) :
  np_fromstring fresh s count = Ok data -> 0 <= count ->
  firstn (length (parse_floats (split s))) data
  = firstn (Z.to_nat count) (parse_floats (split s)).
Proof.
  intros H Hc. rewrite (np_fromstring_padded _ _ _ _ H Hc).
  set (xs := parse_floats (split s)). set (n := Z.to_nat count).
  destruct (Nat.le_gt_cases (length xs) n) as [Hle|Hgt].
  - rewrite (firstn_all2 xs) by exact Hle.
    rewrite firstn_app, Nat.sub_diag, firstn_all. cbn [firstn]. apply app_nil_r.
  - replace (n - length xs)%nat with 0%nat by lia. cbn [seq map].
    rewrite app_nil_r. apply firstn_all2. rewrite length_firstn. lia.
Qed.

(** No fuel is involved in [numpy.fromstring]. *)
Lemma np_fromstring_no_fuel (fresh : memory) (s : bytes) (count : Z) :
  np_fromstring fresh s count <> OutOfFuel.
Proof.
  unfold np_fromstring.
  destruct (_ || _); [discriminate|].
  destruct (count <? 0).
  - destruct (room fresh <? _); discriminate.
  - destruct (MAX_DOUBLES <? count); [discriminate|].
    destruct (room fresh <? count); discriminate.
Qed.

End TextReader.

(** C8 (as the code has it). When the two header lines can be read and
    numpy has room for an array of the declared count, [read_data] raises
    nothing, whatever the number of samples that follow: it returns the
    declared count and an array of that many entries, which starts with the
    numbers found, as far as the count goes. *)
Theorem text_read_accepts_any_sample_count
  (fresh : memory) (l1 l2 rest c n : bytes) (clock : float) (size : Z) :
  ~ In LF l1 -> ~ In LF l2 ->
  item (split_on "=" (strip (tl (l1 ++ [LF])))) 1 = Ok c ->
  float_of_str c = Ok clock ->
  item (split_on "=" (strip (tl (l2 ++ [LF])))) 1 = Ok n ->
  int n = Ok size ->
  0 <= size <= MAX_DOUBLES ->
  size <= room fresh ->
  exists data,
    PulseTxtFile.read_data fresh (l1 ++ LF :: l2 ++ LF :: rest)
    = Ok ((clock, size, data), [])
    /\ len data = size
    /\ firstn (length (parse_floats (split rest))) data
       = firstn (Z.to_nat size) (parse_floats (split rest)).
Proof.
  intros H1 H2 Hc Hclock Hn Hsize Hpos Hroom.
  pose proof (np_fromstring_ok fresh rest size Hpos Hroom) as Hnp.
  eexists. split; [|split].
  - unfold PulseTxtFile.read_data.
    unfold rbind at 1. unfold readline at 1. rewrite span_line_app by exact H1.
    unfold rbind at 1. rewrite Hc. cbn [lift].
    unfold rbind at 1. rewrite Hclock. cbn [lift].
    unfold rbind at 1. unfold readline at 1. rewrite span_line_app by exact H2.
    unfold rbind at 1. rewrite Hn. cbn [lift].
    unfold rbind at 1. rewrite Hsize. cbn [lift].
    unfold rbind at 1, read_all. unfold rbind at 1. rewrite Hnp. cbn [lift].
    reflexivity.
  - apply (len_np_fromstring _ _ _ _ Hnp). lia.
  - apply (np_fromstring_prefix _ _ _ _ Hnp). lia.
Qed.

Lemma text_read_accepts_any_sample_count_witness :
  exists data,
    PulseTxtFile.read_data fresh_nan
      ((lit "#clock=1e9" ++ [CR]) ++ LF :: (lit "#size=10" ++ [CR]) ++ LF
         :: concat (repeat (lit "0.5" ++ [CR; LF]) 8))
    = Ok ((S754_finite false 8388608000000000 (-23), 10, data), [])
    /\ len data = 10
    /\ firstn (length (parse_floats (split (concat (repeat (lit "0.5" ++ [CR; LF]) 8))))) data
       = firstn (Z.to_nat 10)
           (parse_floats (split (concat (repeat (lit "0.5" ++ [CR; LF]) 8)))).
Proof.
  apply (text_read_accepts_any_sample_count fresh_nan
           (lit "#clock=1e9" ++ [CR]) (lit "#size=10" ++ [CR])
           (concat (repeat (lit "0.5" ++ [CR; LF]) 8))
           (lit "1e9") (lit "10")).
  - vm_compute. intuition discriminate.
  - vm_compute. intuition discriminate.
  - vm_compute. reflexivity.
  - vm_compute. reflexivity.
  - vm_compute. reflexivity.
  - vm_compute. reflexivity.
  - vm_compute. split; discriminate.
  - vm_compute. discriminate.
Defined.

(** C8 fails on the code: a text that declares 10 samples and holds 8 is
    read without error, and 10 is returned as the size. *)
Lemma text_read_accepts_missing_samples :
  length (parse_floats (split (concat (repeat (lit "0.5" ++ [CR; LF]) 8)))) = 8%nat
  /\ exists clock data,
       PulseTxtFile.read_data fresh_nan short_text = Ok ((clock, 10, data), []).
Proof.
  split; [vm_compute; reflexivity|].
  eexists. eexists. vm_compute. reflexivity.
Qed.

(** ** The conversion loop *)
Section Conversion.

Import Converter.

Lemma bytes_eqb_refl (a : bytes) : bytes_eqb a a = true.
Proof.
  unfold bytes_eqb. apply String.eqb_refl.
Qed.

Lemma lookup_store (name content : bytes) (d : dir) :
  lookup name (store name content d) = Some content.
Proof.
  induction d as [|[n c] d IH]; cbn [store lookup].
  - now rewrite bytes_eqb_refl.
  - destruct (bytes_eqb n name) eqn:E; cbn [lookup]; rewrite E; [reflexivity|exact IH].
Qed.

Lemma store_store (name c1 c2 : bytes) (d : dir) :
  store name c2 (store name c1 d) = store name c2 d.
Proof.
  induction d as [|[n c] d IH]; cbn [store].
  - now rewrite bytes_eqb_refl.
  - destruct (bytes_eqb n name) eqn:E; cbn [store]; rewrite E; [reflexivity|now rewrite IH].
Qed.

Lemma convert_loop_app (fresh : memory) (a b : list bytes) : forall st,
  convert_loop fresh (a ++ b) st
  = match convert_loop fresh a st with
    | (Ok _, st') => convert_loop fresh b st'
    | r => r
    end.
Proof.
  induction a as [|f a IH]; intros st; [reflexivity|].
  cbn [app convert_loop].
  destruct (convert_one fresh f st) as [[u|e|] st']; [apply IH|reflexivity|reflexivity].
Qed.

(** [fname[:-4]] removes the last four characters. *)
Lemma new_file_name_drop_last (fname : bytes) :
  new_file_name fname = drop_last 4 fname ++ lit ".wfm".
Proof.
  unfold new_file_name, drop_last. now rewrite skipn_rev, rev_involutive.
Qed.

Lemma new_file_name_ext (root ext : bytes) :
  length ext = 4%nat -> new_file_name (root ++ ext) = root ++ lit ".wfm".
Proof.
  intros H. unfold new_file_name. rewrite length_app, H.
  replace (length root + 4 - 4)%nat with (length root + 0)%nat by lia.
  rewrite firstn_app_2. cbn [firstn]. now rewrite app_nil_r.
Qed.

(** What a successful round of the loop has done. *)
Lemma convert_one_ok (fresh : memory) (fname : bytes) (st st' : state) :
  convert_one fresh fname st = (Ok tt, st') ->
  exists txt clock size data r,
    lookup fname (files st) = Some txt
    /\ PulseTxtFile.read_data fresh txt = Ok ((clock, size, data), r)
    /\ fst (WFMFile.write_data data clock []) = Ok tt
    /\ files st' = store (new_file_name fname) (snd (WFMFile.write_data data clock [])) (files st).
Proof.
  unfold convert_one. destruct (lookup fname (files st)) as [txt|]; [|discriminate].
  destruct (PulseTxtFile.read_data fresh txt) as [[[[clock size] data] r]|e|] eqn:R;
    [|discriminate|discriminate].
  destruct (WFMFile.write_data data clock []) as [[u|e|] out] eqn:W;
    [|discriminate|discriminate].
  intros [= <-]. exists txt, clock, size, data, r.
  cbn [files _feedback set_files]. rewrite store_store, W. destruct u.
  split; [reflexivity|]. split; [exact R|]. split; reflexivity.
Qed.

End Conversion.

(** C9. When reading a selected text raises, the round of the loop for this
    text leaves the directory and the status text as they were: no
    destination file is created or written. The exception ends [convert] and
    reaches its caller. *)
Theorem read_failure_writes_nothing
  (fresh : memory) (pre rest : list bytes) (fname txt : bytes)
  (st st1 : Converter.state) (e : exn) :
  Converter.selected st = pre ++ fname :: rest ->
  Converter.convert_loop fresh pre st = (Ok tt, st1) ->
  Converter.lookup fname (Converter.files st1) = Some txt ->
  PulseTxtFile.read_data fresh txt = Raise e ->
  Converter.convert_one fresh fname st1 = (Raise e, st1)
  /\ Converter.convert fresh st = (Raise e, st1).
Proof.
  intros Hsel Hpre Hlook Hread.
  assert (H1 : Converter.convert_one fresh fname st1 = (Raise e, st1)).
  { unfold Converter.convert_one. now rewrite Hlook, Hread. }
  split; [exact H1|].
  unfold Converter.convert. rewrite Hsel, convert_loop_app, Hpre.
  cbn [Converter.convert_loop]. now rewrite H1.
Qed.

Lemma read_failure_writes_nothing_witness :
  Converter.convert_one fresh_nan (lit "bad.txt") bad_dir = (Raise IndexError, bad_dir)
  /\ Converter.convert fresh_nan bad_dir = (Raise IndexError, bad_dir).
Proof.
  apply (read_failure_writes_nothing fresh_nan [] [lit "other.txt"] (lit "bad.txt")
           (lit "no header here") bad_dir bad_dir IndexError).
  - reflexivity.
  - reflexivity.
  - reflexivity.
  - vm_compute. reflexivity.
Defined.

(** C10. The destination name is the source name without its last four
    characters, followed by [.wfm]. Two names that differ only in their last
    four characters have the same destination, and when both are converted the
    destination holds what was written for the second: the output of the first
    is overwritten. *)
Theorem destination_name_collision
  (fresh : memory) (root ea eb : bytes) (st st1 st2 : Converter.state) :
  length ea = 4%nat -> length eb = 4%nat ->
  Converter.selected st = [root ++ ea; root ++ eb] ->
  Converter.convert_one fresh (root ++ ea) st = (Ok tt, st1) ->
  Converter.convert_one fresh (root ++ eb) st1 = (Ok tt, st2) ->
  Converter.convert fresh st = (Ok tt, Converter._fire_reload_fired st2)
  /\ Converter.new_file_name (root ++ ea) = drop_last 4 (root ++ ea) ++ lit ".wfm"
  /\ Converter.new_file_name (root ++ eb) = drop_last 4 (root ++ eb) ++ lit ".wfm"
  /\ Converter.new_file_name (root ++ ea) = root ++ lit ".wfm"
  /\ Converter.new_file_name (root ++ eb) = root ++ lit ".wfm"
  /\ exists txta clocka sizea dataa ra txtb clockb sizeb datab rb,
       Converter.lookup (root ++ ea) (Converter.files st) = Some txta
       /\ PulseTxtFile.read_data fresh txta = Ok ((clocka, sizea, dataa), ra)
       /\ Converter.lookup (root ++ lit ".wfm") (Converter.files st1)
          = Some (snd (WFMFile.write_data dataa clocka []))
       /\ Converter.lookup (root ++ eb) (Converter.files st1) = Some txtb
       /\ PulseTxtFile.read_data fresh txtb = Ok ((clockb, sizeb, datab), rb)
       /\ Converter.lookup (root ++ lit ".wfm") (Converter.files st2)
          = Some (snd (WFMFile.write_data datab clockb [])).
Proof.
  intros Ha Hb Hsel H1 H2.
  split.
  { unfold Converter.convert. rewrite Hsel. cbn [Converter.convert_loop].
    now rewrite H1, H2. }
  split; [apply new_file_name_drop_last|].
  split; [apply new_file_name_drop_last|].
  split; [now apply new_file_name_ext|].
  split; [now apply new_file_name_ext|].
  destruct (convert_one_ok _ _ _ _ H1) as (txta & ca & sa & da & ra & L1 & R1 & _ & F1).
  destruct (convert_one_ok _ _ _ _ H2) as (txtb & cb & sb & db & rb & L2 & R2 & _ & F2).
  rewrite new_file_name_ext in F1, F2 by assumption.
  exists txta, ca, sa, da, ra, txtb, cb, sb, db, rb.
  repeat split; try assumption.
  - rewrite F1. apply lookup_store.
  - rewrite F2. apply lookup_store.
Qed.

Lemma destination_name_collision_witness :
  exists st1 st2,
    Converter.convert_one fresh_nan (lit "a" ++ lit ".csv") twin_dir = (Ok tt, st1)
    /\ Converter.convert_one fresh_nan (lit "a" ++ lit ".txt") st1 = (Ok tt, st2)
    /\ Converter.new_file_name (lit "a" ++ lit ".csv") = lit "a" ++ lit ".wfm"
    /\ Converter.new_file_name (lit "a" ++ lit ".txt") = lit "a" ++ lit ".wfm"
    /\ Converter.lookup (lit "a.wfm") (Converter.files st1)
       <> Converter.lookup (lit "a.wfm") (Converter.files st2).
Proof.
  eexists. eexists.
  split; [vm_compute; reflexivity|].
  split; [vm_compute; reflexivity|].
  pose proof (destination_name_collision fresh_nan (lit "a") (lit ".csv") (lit ".txt")
                twin_dir _ _ eq_refl eq_refl eq_refl eq_refl eq_refl)
    as (_ & _ & _ & N1 & N2 & _).
  split; [exact N1|]. split; [exact N2|].
  vm_compute. discriminate.
Defined.

(** * Further properties of the code *)

(** ** Malformed waveform files *)
Section Malformed.

Lemma int_nil : int [] = Raise ValueError.
Proof.
  reflexivity.
Qed.

Lemma int_single_not_digit (c : ascii) : is_digit c = false -> int [c] = Raise ValueError.
Proof.
  intros H. unfold int, strip. cbn [lstrip].
  destruct (is_space c) eqn:Hs.
  - reflexivity.
  - cbn [rev app lstrip]. rewrite Hs. cbn [rev app split_sign].
    destruct (Ascii.eqb c "-"); [reflexivity|].
    destruct (Ascii.eqb c "+"); [reflexivity|].
    unfold parse_nat. cbn [parse_digits]. now rewrite H.
Qed.

Lemma read_nonneg (n : Z) (s : bytes) :
  0 <= n -> read n s = Ok (firstn (Z.to_nat n) s, skipn (Z.to_nat n) s).
Proof.
  intros H. unfold read. destruct (Z.ltb_spec n 0); [lia|reflexivity].
Qed.

(** The first three reads of [read_data]: header, [#] and digit count. *)
Lemma read_data_start (s : bytes) :
  WFMFile.read_data s
  = (num_digits <- lift (int (firstn 1 (skipn 13 s))) ;;
     b <- read num_digits ;;
     num_bytes <- lift (int b) ;;
     data <- WFMFile.read_records (Z.to_nat num_bytes) 0 num_bytes [] ;;
     rest <- read_all ;;
     clock <- lift (item (split rest) 1) ;;
     rret (data, clock)) (skipn 14 s).
Proof.
  unfold WFMFile.read_data.
  unfold rbind at 1. rewrite read_nonneg by lia.
  unfold rbind at 1. rewrite read_nonneg by lia.
  unfold rbind at 1. rewrite read_nonneg by lia.
  rewrite !skipn_skipn. reflexivity.
Qed.

End Malformed.

(** X1. An input of at most 13 bytes has no digit count: [read_data] raises
    [ValueError]. The empty file is one such input. *)
Theorem read_data_truncated_header (s : bytes) :
  (length s <= 13)%nat -> WFMFile.read_data s = Raise ValueError.
Proof.
  intros H. rewrite read_data_start.
  rewrite (skipn_all2 s (n := 13)) by exact H.
  reflexivity.
Qed.

Lemma read_data_truncated_header_witness :
  WFMFile.read_data (WFMFile.header ++ lit "#") = Raise ValueError.
Proof.
  apply (read_data_truncated_header (WFMFile.header ++ lit "#")).
  vm_compute. repeat constructor.
Defined.

(** X2. When the byte after [#] is not one of the digits 1 to 9,
    [read_data] raises [ValueError]: a byte that is no digit is refused by
    [int], and the digit 0 makes [read_data] read an empty length. *)
Theorem read_data_bad_digit_count (h rest : bytes) (x d : ascii) :
  length h = 12%nat ->
  is_digit d = false \/ d = "0"%char ->
  WFMFile.read_data (h ++ x :: d :: rest) = Raise ValueError.
Proof.
  intros Hh Hd. rewrite read_data_start.
  assert (E13 : skipn 13 (h ++ x :: d :: rest) = d :: rest).
  { rewrite skipn_app, Hh, skipn_all2 by lia. reflexivity. }
  assert (E14 : skipn 14 (h ++ x :: d :: rest) = rest).
  { rewrite skipn_app, Hh, skipn_all2 by lia. reflexivity. }
  rewrite E13, E14. cbn [firstn].
  destruct Hd as [Hd | ->].
  - unfold rbind at 1. now rewrite int_single_not_digit.
  - reflexivity.
Qed.

Lemma read_data_bad_digit_count_witness :
  WFMFile.read_data (WFMFile.header ++ "#"%char :: "x"%char :: lit "5")
  = Raise ValueError.
Proof.
  apply (read_data_bad_digit_count WFMFile.header (lit "5") "#" "x").
  - reflexivity.
  - left. reflexivity.
Defined.

(** ** The length field and the body, read *)
Section Body.

Lemma lstrip_printable (s : bytes) : Forall printable s -> lstrip s = s.
Proof.
  destruct 1 as [|c s Hc _]; [reflexivity|].
  cbn [lstrip]. unfold printable in Hc. now rewrite Hc.
Qed.

Lemma strip_printable (s : bytes) : Forall printable s -> strip s = s.
Proof.
  intros H. unfold strip. rewrite (lstrip_printable s H).
  rewrite lstrip_printable by (apply Forall_rev; exact H).
  apply rev_involutive.
Qed.

Lemma digits_printable (s : bytes) :
  Forall (fun c => is_digit c = true) s -> Forall printable s.
Proof.
  apply Forall_impl. intros c. apply is_digit_not_space.
Qed.

(** [int(str(n)) == n] for every integer. *)
Lemma int_str_int_all (n : Z) : int (str_int n) = Ok n.
Proof.
  destruct (Z_lt_ge_dec n 0) as [Hneg|Hpos]; [|apply int_str_int; lia].
  unfold str_int. destruct (Z.ltb_spec n 0); [|lia].
  pose proof (str_nonneg_digits (- n) ltac:(lia)) as Hd.
  unfold int. rewrite strip_printable.
  - cbn [split_sign]. change (Ascii.eqb "-" "-") with true. cbv iota.
    unfold parse_nat. pose proof (str_nonneg_nonempty (- n) ltac:(lia)).
    destruct (str_nonneg (- n)) eqn:E; [congruence|].
    rewrite <- E, parse_digits_str_nonneg by lia. f_equal. lia.
  - constructor; [reflexivity|]. now apply digits_printable.
Qed.

(** After a length field with one digit of digit count, [read_data] runs
    its loop on what follows. *)
Lemma read_data_field (h rest : bytes) (nb : Z) :
  length h = 12%nat ->
  1 <= len (str_int nb) <= 9 ->
  WFMFile.read_data (h ++ length_field nb ++ rest)
  = (data <- WFMFile.read_records (Z.to_nat nb) 0 nb [] ;;
     rest' <- read_all ;;
     clock <- lift (item (split rest') 1) ;;
     rret (data, clock)) rest.
Proof.
  intros Hh Hnd. set (nd := len (str_int nb)) in *.
  unfold length_field, WFMFile.read_data. fold nd.
  unfold rbind at 1. rewrite (read_app_n 12 h) by (unfold len; lia).
  cbn [app].
  unfold rbind at 1. change (read 1 ("#"%char :: ?x)) with (Ok (["#"%char], x)).
  rewrite (str_int_nonneg nd), (str_nonneg_small nd) by lia.
  unfold rbind at 1. cbn [app].
  change (read 1 (digit_char nd :: ?x)) with (Ok ([digit_char nd], x)).
  unfold rbind at 1.
  rewrite <- (str_nonneg_small nd), <- (str_int_nonneg nd) by lia.
  rewrite int_str_int by lia. cbn [lift].
  unfold rbind at 1. rewrite (read_app_n nd (str_int nb)) by reflexivity.
  unfold rbind at 1. rewrite int_str_int_all. cbn [lift].
  reflexivity.
Qed.

Lemma len_str_int_digits (nb : Z) : 0 <= nb < 10 ^ 9 -> 1 <= len (str_int nb) <= 9.
Proof.
  intros H. split.
  - rewrite str_int_nonneg by lia. apply len_str_nonneg. lia.
  - apply len_str_int_le; [exact H|lia].
Qed.

Lemma read_records_done (fuel : nat) (counter nb : Z) (data : list float) (s : bytes) :
  nb <= counter -> WFMFile.read_records fuel counter nb data s = Ok (data, s).
Proof.
  intros H. destruct fuel; cbn [WFMFile.read_records];
    (destruct (Z.ltb_spec counter nb); [lia|reflexivity]).
Qed.

Lemma read_records_step (fuel : nat) (counter nb : Z) (data : list float) (s : bytes) :
  counter < nb ->
  WFMFile.read_records (S fuel) counter nb data s
  = match unpack_f (firstn 4 (firstn 5 s)) with
    | Ok x => WFMFile.read_records fuel (counter + 5) nb (data ++ [x]) (skipn 5 s)
    | Raise e => Raise e
    | OutOfFuel => OutOfFuel
    end.
Proof.
  intros H. cbn [WFMFile.read_records]. destruct (Z.ltb_spec counter nb); [|lia].
  unfold rbind at 1. rewrite read_nonneg by lia. change (Z.to_nat 5) with 5%nat.
  unfold rbind at 1, lift. destruct (unpack_f _); reflexivity.
Qed.

(** On an input that ends before the declared count of bytes, the loop
    raises [struct.error] or uses up the input. It comes to its end on a body
    that is too short only when the count of bytes left is a multiple of 5
    and one byte is missing, the marker of the last record, which the loop
    does not look at. *)
Lemma read_records_truncated (fuel : nat) : forall counter nb data s,
  len s < nb - counter ->
  nb - counter <= Z.of_nat fuel ->
  if ((nb - counter) mod 5 =? 0) && (len s =? nb - counter - 1)
  then exists d, WFMFile.read_records fuel counter nb data s = Ok (d, [])
  else WFMFile.read_records fuel counter nb data s = Raise StructError.
Proof.
  induction fuel as [|fuel IH]; intros counter nb data s Hs Hf;
    pose proof (len_nonneg s) as Hn; [lia|].
  rewrite read_records_step by lia. unfold unpack_f.
  assert (Hmod : (nb - (counter + 5)) mod 5 = (nb - counter) mod 5).
  { replace (nb - (counter + 5)) with (nb - counter + (-1) * 5) by lia.
    apply Z_mod_plus_full. }
  destruct (Nat.eqb_spec (length (firstn 4 (firstn 5 s))) 4) as [E|E];
    rewrite !length_firstn in E.
  - assert (H4 : 4 <= len s) by (unfold len; lia).
    destruct (Z_le_gt_dec (nb - counter) 5) as [Hle|Hgt].
    + assert (E5 : nb - counter = 5) by lia.
      assert (E4 : len s = 4) by lia.
      rewrite E5, E4. cbn [Z.modulo Z.div_eucl Z.eqb andb Z.sub Z.add Z.opp Z.pos_sub
                           Pos.pred_double Z.succ_double Z.pred_double Z.double].
      change (5 mod 5 =? 0) with true. change (4 =? 5 - 1) with true. cbn [andb].
      exists (data ++ [bits32_to_float (le_word (firstn 4 (firstn 5 s)))]).
      rewrite read_records_done by lia. f_equal. f_equal.
      apply skipn_all2. unfold len in E4. lia.
    + specialize (IH (counter + 5) nb
                     (data ++ [bits32_to_float (le_word (firstn 4 (firstn 5 s)))])
                     (skipn 5 s)).
      assert (Hk : len (skipn 5 s) = Z.max 0 (len s - 5)).
      { unfold len. rewrite length_skipn. lia. }
      rewrite Hmod, Hk in IH.
      assert (Hc : (len s =? nb - counter - 1)
                   && ((nb - counter) mod 5 =? 0)
                   = (Z.max 0 (len s - 5) =? nb - (counter + 5) - 1)
                     && ((nb - counter) mod 5 =? 0)).
      { destruct (Z.eqb_spec ((nb - counter) mod 5) 0) as [M|M];
          [|now rewrite !andb_false_r].
        rewrite !andb_true_r.
        destruct (Z.eqb_spec (len s) (nb - counter - 1)) as [L|L];
          destruct (Z.eqb_spec (Z.max 0 (len s - 5)) (nb - (counter + 5) - 1)) as [K|K];
          try reflexivity; exfalso.
        - apply K. lia.
        - assert (len s = 4 /\ nb - counter = 6) as [_ E6] by lia.
          rewrite E6 in M. discriminate M. }
      rewrite (andb_comm (_ =? 0)), Hc, (andb_comm _ (_ =? 0)).
      apply IH; lia.
  - assert (H4 : len s < 4) by (unfold len; lia).
    destruct (Z.eqb_spec ((nb - counter) mod 5) 0) as [M|M]; [|reflexivity].
    destruct (Z.eqb_spec (len s) (nb - counter - 1)) as [L|L]; [|reflexivity].
    exfalso. apply Z.mod_divide in M; [|lia]. destruct M as [q M]. lia.
Qed.

End Body.

(** X3. A file that ends inside its body, with fewer bytes after the
    length field than the field declares, is never read to a result:
    [read_data] raises [IndexError] when the declared count is a multiple of
    5 and a single byte is missing, the marker of the last record, and
    [struct.error] in every other case. *)
Theorem read_data_truncated_body (h body : bytes) (nb : Z) :
  length h = 12%nat ->
  nb < 10 ^ 9 ->
  len body < nb ->
  WFMFile.read_data (h ++ length_field nb ++ body)
  = Raise (if (nb mod 5 =? 0) && (len body =? nb - 1)
           then IndexError else StructError).
Proof.
  intros Hh Hnb Hbody. pose proof (len_nonneg body).
  rewrite read_data_field by (try apply len_str_int_digits; lia || assumption).
  unfold rbind at 1.
  pose proof (read_records_truncated (Z.to_nat nb) 0 nb [] body ltac:(lia) ltac:(lia))
    as T.
  rewrite Z.sub_0_r in T.
  destruct ((nb mod 5 =? 0) && (len body =? nb - 1)).
  - destruct T as [d ->]. reflexivity.
  - rewrite T. reflexivity.
Qed.

Lemma read_data_truncated_body_witness :
  WFMFile.read_data
    (WFMFile.header ++ length_field 10 ++ record_of 1065353216 ++ le_bytes 4 1065353216)
  = Raise IndexError
  /\ WFMFile.read_data (WFMFile.header ++ length_field 10 ++ le_bytes 4 1065353216)
     = Raise StructError.
Proof.
  split.
  - apply (read_data_truncated_body WFMFile.header
             (record_of 1065353216 ++ le_bytes 4 1065353216) 10);
      reflexivity.
  - apply (read_data_truncated_body WFMFile.header (le_bytes 4 1065353216) 10);
      reflexivity.
Defined.

(** ** The trailer, read *)
Section TrailerRead.

Lemma split_go_blanks (sep : bytes) : forall rest,
  Forall blank sep -> split_go (sep ++ rest) [] = split_go rest [].
Proof.
  induction sep as [|c sep IH]; intros rest H; [reflexivity|].
  inversion H as [|? ? Hc Hsep]; subst. unfold blank in Hc.
  cbn [app split_go]. rewrite Hc. now apply IH.
Qed.

Lemma split_blanks (sep s : bytes) : Forall blank sep -> split (sep ++ s) = split s.
Proof.
  intros H. unfold split. now apply split_go_blanks.
Qed.

Lemma rev_nonempty {A} (w : list A) : w <> [] -> exists x l, rev w = x :: l.
Proof.
  intros H. destruct (rev w) as [|x l] eqn:E.
  - apply (f_equal (@rev A)) in E. rewrite rev_involutive in E. contradiction.
  - now exists x, l.
Qed.

Lemma split_word (w : bytes) : w <> [] -> Forall printable w -> split w = [w].
Proof.
  intros Hne Hp. unfold split. rewrite <- (app_nil_r w) at 1.
  rewrite split_go_word by exact Hp. rewrite app_nil_r. cbn [split_go].
  destruct (rev_nonempty w Hne) as (x & l & E). rewrite E, <- E.
  now rewrite rev_involutive.
Qed.

Lemma split_word_then (w sep rest : bytes) :
  w <> [] -> Forall printable w -> sep <> [] -> Forall blank sep ->
  split (w ++ sep ++ rest) = w :: split rest.
Proof.
  intros Hne Hp Hs Hb. unfold split. rewrite split_go_word by exact Hp.
  rewrite app_nil_r. destruct sep as [|c sep]; [contradiction|].
  inversion Hb as [|? ? Hc Hsep]; subst. unfold blank in Hc.
  cbn [app split_go]. rewrite Hc.
  destruct (rev_nonempty w Hne) as (x & l & E). rewrite E, <- E.
  rewrite rev_involutive. f_equal. now apply split_go_blanks.
Qed.

End TrailerRead.

(** X4. [read_data] takes as the clock the second word after the body,
    whatever the first word is, whatever white space separates them (a
    carriage return before the line feed, as in the format description,
    or none), and whatever follows the second word after white space. *)
Theorem read_data_trailer_words
  (h : bytes) (recs : list bytes) (lead w1 sep w2 rest : bytes) :
  length h = 12%nat ->
  5 * len recs < 10 ^ 9 ->
  Forall (fun r => length r = 5%nat) recs ->
  Forall blank lead ->
  w1 <> [] -> Forall printable w1 ->
  sep <> [] -> Forall blank sep ->
  w2 <> [] -> Forall printable w2 ->
  rest = [] \/ (exists c r, rest = c :: r /\ blank c) ->
  WFMFile.read_data (layout h (5 * len recs) recs (lead ++ w1 ++ sep ++ w2 ++ rest))
  = Ok ((map sample_of recs, w2), []).
Proof.
  intros Hh Hlen Hrecs Hlead H1 P1 Hs Bs H2 P2 Hrest.
  pose proof (len_nonneg recs).
  rewrite read_data_layout; try assumption; try lia.
  rewrite split_blanks, split_word_then by assumption.
  destruct Hrest as [-> | (c & r & -> & Hc)].
  - rewrite app_nil_r, split_word by assumption. reflexivity.
  - change (w2 ++ c :: r) with (w2 ++ [c] ++ r).
    rewrite split_word_then; try assumption; [reflexivity|discriminate|].
    constructor; [exact Hc|constructor].
Qed.

Lemma read_data_trailer_words_witness :
  WFMFile.read_data
    (layout WFMFile.header (5 * len [record_of 1065353216]) [record_of 1065353216]
       ([] ++ lit "RATE" ++ [" "%char] ++ lit "2.5e6" ++ [CR; LF] ++ lit "notes"))
  = Ok ((map sample_of [record_of 1065353216], lit "2.5e6"), []).
Proof.
  apply (read_data_trailer_words WFMFile.header [record_of 1065353216]
           [] (lit "RATE") [" "%char] (lit "2.5e6") ([CR; LF] ++ lit "notes")).
  - reflexivity.
  - reflexivity.
  - repeat constructor.
  - constructor.
  - discriminate.
  - repeat constructor.
  - discriminate.
  - repeat constructor.
  - discriminate.
  - repeat constructor.
  - right. exists CR, (LF :: lit "notes"). split; reflexivity.
Defined.

(** X5. The format description makes the trailer optional, but
    [read_data] needs it: when at most one word follows the body, be it a
    file that ends with its body, [read_data] raises [IndexError]. *)
Theorem read_data_missing_trailer
  (h : bytes) (recs : list bytes) (lead w rest : bytes) :
  length h = 12%nat ->
  5 * len recs < 10 ^ 9 ->
  Forall (fun r => length r = 5%nat) recs ->
  Forall blank lead -> Forall printable w -> Forall blank rest ->
  WFMFile.read_data (layout h (5 * len recs) recs (lead ++ w ++ rest))
  = Raise IndexError.
Proof.
  intros Hh Hlen Hrecs Hlead Pw Hrest.
  pose proof (len_nonneg recs).
  rewrite read_data_layout; try assumption; try lia.
  rewrite split_blanks by assumption.
  destruct w as [|c w].
  - cbn [app]. rewrite <- (app_nil_r rest), split_blanks by assumption. reflexivity.
  - destruct rest as [|b rest].
    + rewrite app_nil_r, split_word by (assumption || discriminate). reflexivity.
    + rewrite <- (app_nil_r (b :: rest)).
      rewrite split_word_then by (assumption || discriminate). reflexivity.
Qed.

Lemma read_data_missing_trailer_witness :
  WFMFile.read_data
    (layout WFMFile.header (5 * len [record_of 1065353216]) [record_of 1065353216]
       ([] ++ [] ++ []))
  = Raise IndexError.
Proof.
  apply (read_data_missing_trailer WFMFile.header [record_of 1065353216] [] [] []).
  - reflexivity.
  - reflexivity.
  - repeat constructor.
  - constructor.
  - constructor.
  - constructor.
Defined.

(** X6. When the count of bytes reads as zero or as a negative number,
    however it is spelled ([0], [00], [-5], a zero after a blank),
    [read_data] reads no record and takes everything after the length field
    for the trailer: it returns no sample, with the second word after the
    field as the clock, and raises [IndexError] when fewer than two words
    follow the field. *)
Theorem read_data_nonpositive_length (h f tail : bytes) (x d : ascii) (nb : Z) :
  length h = 12%nat ->
  int [d] = Ok (len f) ->
  int f = Ok nb ->
  nb <= 0 ->
  WFMFile.read_data (h ++ x :: d :: f ++ tail)
  = bind (item (split tail) 1) (fun c => Ok (([], c), [])).
Proof.
  intros Hh Hd Hf Hnb. rewrite read_data_start.
  assert (E13 : skipn 13 (h ++ x :: d :: f ++ tail) = d :: f ++ tail).
  { rewrite skipn_app, Hh, skipn_all2 by lia. reflexivity. }
  assert (E14 : skipn 14 (h ++ x :: d :: f ++ tail) = f ++ tail).
  { rewrite skipn_app, Hh, skipn_all2 by lia. reflexivity. }
  rewrite E13, E14. cbn [firstn].
  unfold rbind at 1. rewrite Hd. cbn [lift].
  unfold rbind at 1. rewrite read_app.
  unfold rbind at 1. rewrite Hf. cbn [lift].
  unfold rbind at 1. rewrite read_records_done by lia.
  unfold rbind at 1, read_all. unfold rbind, lift, rret.
  destruct (item (split tail) 1); reflexivity.
Qed.

Lemma read_data_nonpositive_length_witness :
  WFMFile.read_data (WFMFile.header ++ "#"%char :: "2"%char :: lit "00"
                       ++ record_of 1065353216 ++ lit " CLOCK")
  = Ok (([], lit "CLOCK"), [])
  /\ WFMFile.read_data (WFMFile.header ++ "#"%char :: "2"%char :: lit "-5" ++ [])
     = Raise IndexError.
Proof.
  split.
  - apply (read_data_nonpositive_length WFMFile.header (lit "00")
             (record_of 1065353216 ++ lit " CLOCK") "#" "2" 0).
    + reflexivity.
    + reflexivity.
    + reflexivity.
    + discriminate.
  - apply (read_data_nonpositive_length WFMFile.header (lit "-5") [] "#" "2" (-5)).
    + reflexivity.
    + reflexivity.
    + reflexivity.
    + discriminate.
Defined.

(** ** Writing any series *)
Section Writing.

Lemma packed_words_range (data : list float) (ws : list Z) :
  Forall2 (fun x w => float_to_bits32 x = Ok w) data ws ->
  Forall (fun w => 0 <= w < 2 ^ 32) ws.
Proof.
  induction 1 as [|x w data ws Hw _ IH]; constructor; [|exact IH].
  eapply float_to_bits32_range; eassumption.
Qed.

Lemma read_written_words (data : list float) (clock : float) (ws : list Z) :
  Forall2 (fun x w => float_to_bits32 x = Ok w) data ws ->
  5 * len data < 10 ^ 9 ->
  WFMFile.read_data (layout WFMFile.header (5 * len data) (map record_of ws) (trailer clock))
  = Ok ((map bits32_to_float ws, format_e10 clock), []).
Proof.
  intros Hws Hlen.
  assert (Hl : len ws = len data).
  { unfold len. f_equal. symmetry. eapply Forall2_length; eassumption. }
  pose proof (len_nonneg data).
  rewrite read_data_layout.
  - rewrite item_split_trailer, samples_of_records; [reflexivity|].
    eapply packed_words_range; eassumption.
  - reflexivity.
  - lia.
  - apply records_shape.
  - rewrite len_map. lia.
  - rewrite len_map. lia.
Qed.

Lemma float_to_bits32_error (x : float) (e : exn) :
  float_to_bits32 x = Raise e -> e = OverflowError.
Proof.
  unfold float_to_bits32. destruct x as [s|s| |s m ex]; try discriminate.
  destruct (binary_normalize 24 128 _ ex s); try discriminate; now intros [= <-].
Qed.

Lemma write_items_raise (pre : list float) : forall ws x post out e,
  Forall2 (fun x w => float_to_bits32 x = Ok w) pre ws ->
  float_to_bits32 x = Raise e ->
  WFMFile.write_items (pre ++ x :: post) out
  = (Raise e, out ++ concat (map record_of ws)).
Proof.
  induction pre as [|y pre IH]; intros ws x post out e Hws Hx; inversion Hws; subst.
  - cbn [app WFMFile.write_items map concat]. unfold wseq, wlift, pack_fb.
    rewrite Hx. cbn [bind]. now rewrite app_nil_r.
  - cbn [app WFMFile.write_items map concat]. unfold wseq, wlift.
    rewrite (pack_fb_ok y y0) by assumption.
    rewrite (IH l' x post _ e) by assumption. now rewrite <- app_assoc.
Qed.

End Writing.

(** X7. A series of fewer than 200,000,000 samples, each within the range
    of binary32, is written without error, and reading the file back gives
    each sample rounded to binary32, in order, and the text of the clock
    rate. *)
Theorem roundtrip_rounds_samples (data : list float) (clock : float) :
  Forall packable data ->
  5 * len data < 10 ^ 9 ->
  exists out rounded,
    WFMFile.write_data data clock [] = (Ok tt, out)
    /\ Forall2 (fun x y => round32 x = Ok y) data rounded
    /\ WFMFile.read_data out = Ok ((rounded, format_e10 clock), []).
Proof.
  intros Hp Hlen. destruct (packable_words data Hp) as [ws Hws].
  exists (layout WFMFile.header (5 * len data) (map record_of ws) (trailer clock)).
  exists (map bits32_to_float ws).
  split; [now apply write_data_ok|]. split; [|now apply read_written_words].
  clear Hp Hlen. induction Hws as [|x w data ws Hw _ IH]; cbn [map]; constructor.
  - unfold round32. now rewrite Hw.
  - exact IH.
Qed.

Lemma roundtrip_rounds_samples_witness :
  exists out rounded,
    WFMFile.write_data [tenth; one] one [] = (Ok tt, out)
    /\ Forall2 (fun x y => round32 x = Ok y) [tenth; one] rounded
    /\ WFMFile.read_data out = Ok ((rounded, format_e10 one), []).
Proof.
  apply (roundtrip_rounds_samples [tenth; one] one).
  - repeat constructor; eexists; vm_compute; reflexivity.
  - reflexivity.
Defined.

(** X8. When a sample is beyond the range of binary32, [write_data] raises
    [OverflowError] at this sample: the header, the length field for the
    whole series and the records of the samples before it have been written,
    and neither a later record nor the trailer. *)
Theorem write_data_overflow
  (pre post : list float) (x : float) (clock : float) (ws : list Z) (e : exn) :
  Forall2 (fun y w => float_to_bits32 y = Ok w) pre ws ->
  float_to_bits32 x = Raise e ->
  e = OverflowError
  /\ WFMFile.write_data (pre ++ x :: post) clock []
     = (Raise OverflowError,
        WFMFile.header ++ length_field (5 * len (pre ++ x :: post))
          ++ concat (map record_of ws)).
Proof.
  intros Hws Hx. pose proof (float_to_bits32_error x e Hx) as ->.
  split; [reflexivity|].
  unfold WFMFile.write_data, length_field.
  unfold wseq at 1. unfold write at 1. cbn [app].
  unfold wseq at 1. unfold write at 1.
  unfold wseq. rewrite (write_items_raise pre ws x post _ OverflowError) by assumption.
  f_equal; rewrite <- ?app_assoc; cbn [app]; rewrite <- ?app_assoc; reflexivity.
Qed.

Lemma write_data_overflow_witness :
  OverflowError = OverflowError
  /\ WFMFile.write_data ([one] ++ huge :: [one]) one []
     = (Raise OverflowError,
        WFMFile.header ++ length_field (5 * len ([one] ++ huge :: [one]))
          ++ concat (map record_of [1065353216])).
Proof.
  apply (write_data_overflow [one] [one] huge one [1065353216] OverflowError).
  - repeat constructor.
  - vm_compute. reflexivity.
Defined.

(** X9. [write_data] loses nothing of a series that binary32 holds
    exactly: two such series of fewer than 200,000,000 samples that are
    written to the same bytes are equal, and their clock rates have the same
    text. *)
Theorem write_data_injective (d1 d2 : list float) (c1 c2 : float) :
  Forall f32_exact d1 -> Forall f32_exact d2 ->
  5 * len d1 < 10 ^ 9 -> 5 * len d2 < 10 ^ 9 ->
  WFMFile.write_data d1 c1 [] = WFMFile.write_data d2 c2 [] ->
  d1 = d2 /\ format_e10 c1 = format_e10 c2.
Proof.
  intros E1 E2 L1 L2 H.
  destruct (f32_exact_words d1 E1) as (ws1 & W1 & D1 & _).
  destruct (f32_exact_words d2 E2) as (ws2 & W2 & D2 & _).
  rewrite (write_data_ok d1 c1 ws1 W1), (write_data_ok d2 c2 ws2 W2) in H.
  apply (f_equal snd) in H. cbn [snd] in H.
  pose proof (read_written_words d1 c1 ws1 W1 L1) as R1.
  pose proof (read_written_words d2 c2 ws2 W2 L2) as R2.
  rewrite H, R2, D1, D2 in R1. now injection R1 as -> ->.
Qed.

Lemma write_data_injective_witness :
  [one] = [one] /\ format_e10 one = format_e10 one.
Proof.
  apply (write_data_injective [one] [one] one one).
  - repeat constructor; try discriminate; exists 1065353216; split; reflexivity.
  - repeat constructor; try discriminate; exists 1065353216; split; reflexivity.
  - reflexivity.
  - reflexivity.
  - reflexivity.
Defined.

(** ** The header lines of a text *)
Section HeaderLines.

Lemma in_lstrip (x : ascii) (s : bytes) : In x (lstrip s) -> In x s.
Proof.
  induction s as [|c s IH]; [easy|].
  cbn [lstrip]. destruct (is_space c); [|easy]. intros H. right. now apply IH.
Qed.

Lemma in_strip (x : ascii) (s : bytes) : In x (strip s) -> In x s.
Proof.
  unfold strip. intros H. apply in_rev, in_lstrip, in_rev in H. now apply in_lstrip.
Qed.

Lemma in_tl {A} (x : A) (l : list A) : In x (tl l) -> In x l.
Proof.
  destruct l; [easy|]. intros H. now right.
Qed.

Lemma split_on_go_prefix (sep : ascii) (k : bytes) : forall rest cur,
  ~ In sep k ->
  split_on_go sep (k ++ rest) cur = split_on_go sep rest (rev k ++ cur).
Proof.
  induction k as [|c k IH]; intros rest cur H; [reflexivity|].
  cbn [app split_on_go]. destruct (Ascii.eqb_spec c sep) as [->|Hc].
  - exfalso. apply H. now left.
  - rewrite IH by (intros Hin; apply H; now right).
    cbn [rev]. now rewrite <- app_assoc.
Qed.

Lemma split_on_absent (sep : ascii) (s : bytes) : ~ In sep s -> split_on sep s = [s].
Proof.
  intros H. unfold split_on. rewrite <- (app_nil_r s) at 1.
  rewrite split_on_go_prefix by exact H. cbn [split_on_go].
  now rewrite app_nil_r, rev_involutive.
Qed.

Lemma split_on_first (sep : ascii) (k w : bytes) :
  ~ In sep k -> split_on sep (k ++ sep :: w) = k :: split_on sep w.
Proof.
  intros H. unfold split_on. rewrite split_on_go_prefix by exact H.
  cbn [split_on_go]. rewrite Ascii.eqb_refl. now rewrite app_nil_r, rev_involutive.
Qed.

Lemma lstrip_app_printable (a b : bytes) (c : ascii) :
  printable c -> lstrip (a ++ c :: b) = lstrip a ++ c :: b.
Proof.
  intros Hc. induction a as [|x a IH].
  - cbn [app lstrip]. unfold printable in Hc. now rewrite Hc.
  - cbn [app lstrip]. destruct (is_space x); [exact IH|reflexivity].
Qed.

Lemma strip_key_value (k v : bytes) :
  Forall printable k ->
  strip (k ++ "="%char :: v) = k ++ "="%char :: rstrip v.
Proof.
  intros Hk. unfold strip, rstrip.
  assert (E : lstrip (k ++ "="%char :: v) = k ++ "="%char :: v).
  { destruct Hk as [|c k Hc _]; [reflexivity|].
    cbn [app lstrip]. unfold printable in Hc. now rewrite Hc. }
  rewrite E, rev_app_distr. cbn [rev]. rewrite <- app_assoc. cbn [app].
  rewrite lstrip_app_printable by reflexivity.
  rewrite rev_app_distr. cbn [rev]. rewrite rev_involutive, <- app_assoc. reflexivity.
Qed.

Lemma field_of_line (k v : bytes) :
  Forall printable k -> ~ In "="%char k ->
  item (split_on "=" (strip (k ++ "="%char :: v))) 1
  = item (split_on "=" (rstrip v)) 0.
Proof.
  intros Hk He. rewrite strip_key_value by exact Hk.
  rewrite split_on_first by exact He. reflexivity.
Qed.

End HeaderLines.

(** ** Reading the header lines *)
Section HeaderRead.

Lemma item_error {A} (l : list A) (i : nat) (e : exn) :
  item l i = Raise e -> e = IndexError.
Proof.
  unfold item. destruct (nth_error l i); [discriminate|]. now intros [= <-].
Qed.

Lemma item_no_fuel {A} (l : list A) (i : nat) : item l i <> OutOfFuel.
Proof.
  unfold item. destruct (nth_error l i); discriminate.
Qed.

Lemma float_of_str_error (s : bytes) :
  (exists x, float_of_str s = Ok x) \/ float_of_str s = Raise ValueError.
Proof.
  unfold float_of_str. destruct (split_sign (strip s)) as [neg t].
  destruct (_ || _); [left; eauto|].
  destruct (bytes_eqb _ _); [left; eauto|].
  destruct (take_digits t) as [ip r1].
  destruct (match r1 with [] => _ | c :: r => _ end) as [fp r2].
  destruct (parse_nat (ip ++ fp)); [|now right].
  destruct (parse_exponent r2); [left; eauto|now right].
Qed.

Lemma field_absent (l : bytes) :
  ~ In "="%char l -> item (split_on "=" (strip (tl l))) 1 = Raise IndexError.
Proof.
  intros H. rewrite split_on_absent; [reflexivity|].
  intros Hin. apply H. now apply in_tl, in_strip.
Qed.

Lemma text_read_unfold (fresh : memory) (s : bytes) :
  PulseTxtFile.read_data fresh s
  = bind (item (split_on "=" (strip (tl (fst (span_line s))))) 1) (fun c =>
    bind (float_of_str c) (fun clock =>
    bind (item (split_on "="
                  (strip (tl (fst (span_line (snd (span_line s))))))) 1) (fun n =>
    bind (int n) (fun size =>
    bind (np_fromstring fresh (snd (span_line (snd (span_line s)))) size) (fun data =>
    Ok ((clock, size, data), [])))))).
Proof.
  unfold PulseTxtFile.read_data.
  unfold rbind at 1. unfold readline at 1.
  destruct (span_line s) as [l1 r1]. cbn [fst snd].
  unfold rbind at 1, lift at 1.
  destruct (item (split_on "=" (strip (tl l1))) 1) as [c|e|]; try reflexivity.
  cbn [bind]. unfold rbind at 1, lift at 1.
  destruct (float_of_str c) as [clock|e|]; try reflexivity.
  cbn [bind]. unfold rbind at 1. unfold readline at 1.
  destruct (span_line r1) as [l2 r2]. cbn [fst snd].
  unfold rbind at 1, lift at 1.
  destruct (item (split_on "=" (strip (tl l2))) 1) as [n|e|]; try reflexivity.
  cbn [bind]. unfold rbind at 1, lift at 1.
  destruct (int n) as [size|e|]; try reflexivity.
  cbn [bind]. unfold rbind at 1, read_all. unfold rbind, lift, rret.
  destruct (np_fromstring fresh r2 size); reflexivity.
Qed.

Lemma span_line_header (c : ascii) (k v rest : bytes) :
  c <> LF -> ~ In LF k -> ~ In LF v ->
  span_line (header_line c k v ++ LF :: rest) = (header_line c k v ++ [LF], rest).
Proof.
  intros Hc Hk Hv. apply span_line_app. unfold header_line.
  intros [E|Hin]; [now apply Hc|].
  apply in_app_or in Hin as [Hin|[E|Hin]]; [now apply Hk|discriminate E|now apply Hv].
Qed.

Lemma printable_no_LF (k : bytes) : Forall printable k -> ~ In LF k.
Proof.
  intros H Hin. rewrite Forall_forall in H. specialize (H LF Hin). discriminate H.
Qed.

Lemma field_of_header_line (c : ascii) (k v : bytes) :
  Forall printable k -> ~ In "="%char k ->
  item (split_on "=" (strip (tl (header_line c k v ++ [LF])))) 1
  = item (split_on "=" (rstrip (v ++ [LF]))) 0.
Proof.
  intros Hk He. unfold header_line. cbn [app tl].
  rewrite <- app_assoc. cbn [app]. now apply field_of_line.
Qed.

End HeaderRead.

(** X10. A text whose first or second line holds no [=] is not read:
    [read_data] raises [IndexError], or [ValueError] when the first line has
    a value that is no number. *)
Theorem text_header_needs_equals (fresh : memory) (s : bytes) :
  ~ In "="%char (fst (span_line s))
  \/ ~ In "="%char (fst (span_line (snd (span_line s)))) ->
  PulseTxtFile.read_data fresh s = Raise IndexError
  \/ PulseTxtFile.read_data fresh s = Raise ValueError.
Proof.
  intros H. rewrite text_read_unfold.
  destruct H as [H|H].
  - rewrite field_absent by exact H. now left.
  - destruct (item (split_on "=" (strip (tl (fst (span_line s))))) 1) as [c|e|] eqn:E1.
    + cbn [bind]. destruct (float_of_str_error c) as [[x ->]| ->].
      * cbn [bind]. rewrite field_absent by exact H. now left.
      * now right.
    + apply item_error in E1. subst e. now left.
    + now apply item_no_fuel in E1.
Qed.

Lemma text_header_needs_equals_witness :
  PulseTxtFile.read_data fresh_nan (lit "#clock=1e9" ++ [LF] ++ lit "#size 3" ++ [LF])
  = Raise IndexError
  \/ PulseTxtFile.read_data fresh_nan (lit "#clock=1e9" ++ [LF] ++ lit "#size 3" ++ [LF])
     = Raise ValueError.
Proof.
  apply (text_header_needs_equals fresh_nan
           (lit "#clock=1e9" ++ [LF] ++ lit "#size 3" ++ [LF])).
  right. vm_compute. intuition discriminate.
Defined.

(** X11. The header lines are taken by their place: the first character
    of a line and the key before [=] are not looked at. Two texts whose first
    two lines differ only in these are read to the same result. *)
Theorem text_keys_not_checked
  (fresh : memory) (c1 c1' c2 c2' : ascii) (k1 k1' k2 k2' v1 v2 rest : bytes) :
  c1 <> LF -> c1' <> LF -> c2 <> LF -> c2' <> LF ->
  Forall printable k1 -> Forall printable k1' ->
  Forall printable k2 -> Forall printable k2' ->
  ~ In "="%char k1 -> ~ In "="%char k1' -> ~ In "="%char k2 -> ~ In "="%char k2' ->
  ~ In LF v1 -> ~ In LF v2 ->
  PulseTxtFile.read_data fresh
    (header_line c1 k1 v1 ++ LF :: header_line c2 k2 v2 ++ LF :: rest)
  = PulseTxtFile.read_data fresh
      (header_line c1' k1' v1 ++ LF :: header_line c2' k2' v2 ++ LF :: rest).
Proof.
  intros C1 C1' C2 C2' P1 P1' P2 P2' E1 E1' E2 E2' V1 V2.
  rewrite !text_read_unfold.
  rewrite !span_line_header by (assumption || now apply printable_no_LF).
  cbn [fst snd].
  rewrite !span_line_header by (assumption || now apply printable_no_LF).
  cbn [fst snd].
  rewrite !field_of_header_line by assumption. reflexivity.
Qed.

Lemma text_keys_not_checked_witness :
  PulseTxtFile.read_data fresh_nan
    (header_line "#" (lit "clock") (lit "1e9") ++ LF
       :: header_line "#" (lit "size") (lit "1") ++ LF :: lit "0.5")
  = PulseTxtFile.read_data fresh_nan
      (header_line "!" (lit "size") (lit "1e9") ++ LF
         :: header_line "?" [] (lit "1") ++ LF :: lit "0.5").
Proof.
  apply (text_keys_not_checked fresh_nan "#" "!" "#" "?"
           (lit "clock") (lit "size") (lit "size") [] (lit "1e9") (lit "1") (lit "0.5"));
    try discriminate; try (repeat constructor); vm_compute; intuition discriminate.
Defined.

(** ** The directory and the listing *)
Section Directory.

Import Converter.

Lemma bytes_eqb_eq (a b : bytes) : bytes_eqb a b = true <-> a = b.
Proof.
  unfold bytes_eqb. rewrite String.eqb_eq. split; [|now intros ->].
  intros H. apply (f_equal list_ascii_of_string) in H.
  now rewrite !list_ascii_of_string_of_list_ascii in H.
Qed.

Lemma bytes_eqb_neq (a b : bytes) : a <> b -> bytes_eqb a b = false.
Proof.
  intros H. destruct (bytes_eqb a b) eqn:E; [|reflexivity].
  apply bytes_eqb_eq in E. contradiction.
Qed.

Lemma lookup_store_other (n m content : bytes) (d : dir) :
  n <> m -> lookup n (store m content d) = lookup n d.
Proof.
  intros H. induction d as [|[k c] d IH]; cbn [store lookup].
  - rewrite bytes_eqb_neq by congruence. reflexivity.
  - destruct (bytes_eqb k m) eqn:E; cbn [lookup].
    + apply bytes_eqb_eq in E. subst k.
      rewrite bytes_eqb_neq by congruence. reflexivity.
    + destruct (bytes_eqb k n); [reflexivity|exact IH].
Qed.

Lemma remove_hidden (pre : list bytes) : forall x rest,
  startswith_dot x = true ->
  Listing.remove x (filter visible pre ++ x :: rest) = Ok (filter visible pre ++ rest).
Proof.
  induction pre as [|y pre IH]; intros x rest Hx.
  - cbn [filter app Listing.remove]. now rewrite bytes_eqb_refl.
  - cbn [filter]. destruct (visible y) eqn:Hy.
    + cbn [app Listing.remove].
      rewrite bytes_eqb_neq.
      * rewrite IH by exact Hx. reflexivity.
      * intros ->. unfold visible in Hy. rewrite Hx in Hy. discriminate Hy.
    + now apply IH.
Qed.

Lemma filter_visible_snoc (pre : list bytes) (x : bytes) :
  filter visible (pre ++ [x])
  = if startswith_dot x then filter visible pre else filter visible pre ++ [x].
Proof.
  rewrite filter_app. cbn [filter]. unfold visible at 2.
  destruct (startswith_dot x); cbn [negb]; [apply app_nil_r|reflexivity].
Qed.

Lemma listing_loop (suf : list bytes) : forall pre,
  Listing.loop suf (filter visible pre ++ suf) = Ok (filter visible (pre ++ suf)).
Proof.
  induction suf as [|x suf IH]; intros pre.
  - cbn [Listing.loop]. now rewrite !app_nil_r.
  - pose proof (filter_visible_snoc pre x) as S.
    pose proof (IH (pre ++ [x])) as IH'. rewrite <- app_assoc in IH'. cbn [app] in IH'.
    cbn [Listing.loop]. destruct (startswith_dot x) eqn:Hx.
    + rewrite remove_hidden by exact Hx. cbn [bind]. rewrite <- S. exact IH'.
    + rewrite S, <- app_assoc in IH'. exact IH'.
Qed.

End Directory.

(** X12. The loop of [_update_choices], which removes entries from the
    listing while it runs over a copy, never fails to find the entry it
    removes, and leaves the names that do not start with a dot, in the order
    of the listing: it computes what [Converter._update_choices] states, for
    the working directory as for another one. When the directory cannot be
    listed, nothing is changed. *)
Theorem listing_loop_filters (st : Converter.state) :
  Listing._update_choices st = Ok (Converter._update_choices st)
  /\ match Converter.listdir st with
     | Ok listing =>
         Converter.choices (Converter._update_choices st) = filter visible listing
         /\ forall n, In n (Converter.choices (Converter._update_choices st))
                      <-> In n listing /\ Converter.startswith_dot n = false
     | _ => Converter._update_choices st = st
     end.
Proof.
  assert (F : forall listing n,
             In n (filter visible listing)
             <-> In n listing /\ Converter.startswith_dot n = false).
  { intros listing n. rewrite filter_In. unfold visible, negb.
    destruct (Converter.startswith_dot n); intuition congruence. }
  unfold Listing._update_choices, Converter._update_choices, Converter.listdir.
  destruct (Converter.homeDir st) as [|entries|].
  - pose proof (listing_loop (map fst (Converter.files st)) []) as H.
    cbn [filter app] in H. rewrite H. cbn [bind Converter.choices].
    split; [reflexivity|]. split; [reflexivity|apply F].
  - pose proof (listing_loop entries []) as H.
    cbn [filter app] in H. rewrite H. cbn [bind Converter.choices].
    split; [reflexivity|]. split; [reflexivity|apply F].
  - split; reflexivity.
Qed.

(** ** Rounds of the conversion loop *)
Section Rounds.

Import Converter.

Lemma bind_no_fuel {A B} (r : result A) (k : A -> result B) :
  r <> OutOfFuel -> (forall a, k a <> OutOfFuel) -> bind r k <> OutOfFuel.
Proof.
  intros Hr Hk. destruct r; cbn [bind]; [apply Hk|discriminate|now elim Hr].
Qed.

Lemma float_of_str_no_fuel (s : bytes) : float_of_str s <> OutOfFuel.
Proof.
  destruct (float_of_str_error s) as [[x ->]| ->]; discriminate.
Qed.

Lemma int_no_fuel (s : bytes) : int s <> OutOfFuel.
Proof.
  unfold int. destruct (split_sign (strip s)) as [neg d].
  destruct (parse_nat d); discriminate.
Qed.

Lemma text_read_no_fuel (fresh : memory) (txt : bytes) :
  PulseTxtFile.read_data fresh txt <> OutOfFuel.
Proof.
  rewrite text_read_unfold.
  apply bind_no_fuel; [apply item_no_fuel|intros c].
  apply bind_no_fuel; [apply float_of_str_no_fuel|intros clock].
  apply bind_no_fuel; [apply item_no_fuel|intros n].
  apply bind_no_fuel; [apply int_no_fuel|intros size].
  apply bind_no_fuel; [apply np_fromstring_no_fuel|intros data]. discriminate.
Qed.

Lemma convert_one_inv (fresh : memory) (fname : bytes) (st : state) :
  (lookup fname (files st) = None
   /\ convert_one fresh fname st = (Raise IOError, st))
  \/ (exists txt e,
        lookup fname (files st) = Some txt
        /\ PulseTxtFile.read_data fresh txt = Raise e
        /\ convert_one fresh fname st = (Raise e, st))
  \/ (exists txt clock size data r res out,
        lookup fname (files st) = Some txt
        /\ PulseTxtFile.read_data fresh txt = Ok ((clock, size, data), r)
        /\ WFMFile.write_data data clock [] = (res, out)
        /\ convert_one fresh fname st
           = match res with
             | Ok _ => (Ok tt, _feedback (lit "Created " ++ new_file_name fname)
                                 (set_files (store (new_file_name fname) out (files st)) st))
             | Raise e => (Raise e, set_files (store (new_file_name fname) out (files st)) st)
             | OutOfFuel => (OutOfFuel, set_files (store (new_file_name fname) [] (files st)) st)
             end).
Proof.
  unfold convert_one. destruct (lookup fname (files st)) as [txt|] eqn:L; [|now left].
  right.
  destruct (PulseTxtFile.read_data fresh txt) as [[[[clock size] data] r]|e|] eqn:R.
  - right. destruct (WFMFile.write_data data clock []) as [res out] eqn:W.
    exists txt, clock, size, data, r, res, out.
    split; [reflexivity|]. split; [exact R|]. split; [exact W|].
    destruct res; cbn [files set_files]; now rewrite ?store_store.
  - left. now exists txt, e.
  - exfalso. now apply text_read_no_fuel in R.
Qed.

Lemma write_items_packable (data : list float) : forall out,
  fst (WFMFile.write_items data out) = Ok tt -> Forall packable data.
Proof.
  induction data as [|x data IH]; intros out H; [constructor|].
  cbn [WFMFile.write_items] in H. unfold wseq, wlift, pack_fb in H.
  destruct (float_to_bits32 x) as [w|e|] eqn:E; cbn [bind] in H; try discriminate H.
  cbn [andb Z.leb Z.compare] in H.
  constructor; [now exists w|].
  destruct (WFMFile.write_items data _) as [[u|e|] o] eqn:W; try discriminate H.
  apply (IH (out ++ le_bytes 4 w ++ [chr 0])). now rewrite W.
Qed.

Lemma write_data_packable (data : list float) (clock : float) :
  fst (WFMFile.write_data data clock []) = Ok tt -> Forall packable data.
Proof.
  unfold WFMFile.write_data. unfold wseq at 1. unfold write at 1.
  unfold wseq at 1. unfold write at 1. unfold wseq.
  destruct (WFMFile.write_items data _) as [[u|e|] o] eqn:W; try discriminate.
  intros _. eapply write_items_packable. rewrite W. now destruct u.
Qed.

Lemma text_read_len (fresh : memory) (txt r : bytes)
  (clock : float) (size : Z) (data : list float) :
  PulseTxtFile.read_data fresh txt = Ok ((clock, size, data), r) ->
  0 <= size -> len data = size.
Proof.
  rewrite text_read_unfold. unfold bind.
  destruct (item _ 1); try discriminate.
  destruct (float_of_str _); try discriminate.
  destruct (item _ 1); try discriminate.
  destruct (int _); try discriminate.
  destruct (np_fromstring _ _ _) eqn:N; try discriminate.
  intros [= <- <- <- <-]. apply (len_np_fromstring _ _ _ _ N).
Qed.

End Rounds.

(** X13. A round of the conversion loop, however it ends, changes no
    file but the destination, and leaves the choices and the selection as
    they were. *)
Theorem convert_one_frame
  (fresh : memory) (fname n : bytes) (st st' : Converter.state) (res : result unit) :
  Converter.convert_one fresh fname st = (res, st') ->
  n <> Converter.new_file_name fname ->
  Converter.lookup n (Converter.files st') = Converter.lookup n (Converter.files st)
  /\ Converter.choices st' = Converter.choices st
  /\ Converter.selected st' = Converter.selected st.
Proof.
  intros H Hn.
  destruct (convert_one_inv fresh fname st)
    as [[_ E]|[(txt & e & _ & _ & E)|(txt & c & sz & d & r & w & out & _ & _ & _ & E)]];
    rewrite E in H.
  - injection H as _ <-. repeat split.
  - injection H as _ <-. repeat split.
  - destruct w; injection H as _ <-;
      cbn [Converter.files Converter.choices Converter.selected
           Converter._feedback Converter.set_files];
      (split; [now apply lookup_store_other|split; reflexivity]).
Qed.

Lemma convert_one_frame_witness :
  Converter.lookup (lit "a.txt")
    (Converter.files (snd (Converter.convert_one fresh_nan (lit "a.csv") twin_dir)))
  = Converter.lookup (lit "a.txt") (Converter.files twin_dir)
  /\ Converter.choices (snd (Converter.convert_one fresh_nan (lit "a.csv") twin_dir))
     = Converter.choices twin_dir
  /\ Converter.selected (snd (Converter.convert_one fresh_nan (lit "a.csv") twin_dir))
     = Converter.selected twin_dir.
Proof.
  apply (convert_one_frame fresh_nan (lit "a.csv") (lit "a.txt") twin_dir
           (snd (Converter.convert_one fresh_nan (lit "a.csv") twin_dir))
           (fst (Converter.convert_one fresh_nan (lit "a.csv") twin_dir))).
  - apply surjective_pairing.
  - vm_compute. discriminate.
Defined.

(** X14. When a selected name is not in the directory, [convert] stops
    with [IOError] at this name: the texts before it have been converted, the
    directory is otherwise untouched, and no later name is tried. *)
Theorem missing_source_stops_convert
  (fresh : memory) (pre rest : list bytes) (fname : bytes)
  (st st1 : Converter.state) :
  Converter.selected st = pre ++ fname :: rest ->
  Converter.convert_loop fresh pre st = (Ok tt, st1) ->
  Converter.lookup fname (Converter.files st1) = None ->
  Converter.convert fresh st = (Raise IOError, st1).
Proof.
  intros Hsel Hpre Hlook.
  unfold Converter.convert. rewrite Hsel, convert_loop_app, Hpre.
  cbn [Converter.convert_loop]. unfold Converter.convert_one. now rewrite Hlook.
Qed.

Lemma missing_source_stops_convert_witness :
  Converter.convert fresh_nan
    (Converter.mk_state [(lit "a.txt", text_of "1.0")] Converter.working_dir []
       [lit "gone.txt"; lit "a.txt"] [])
  = (Raise IOError,
     Converter.mk_state [(lit "a.txt", text_of "1.0")] Converter.working_dir []
       [lit "gone.txt"; lit "a.txt"] []).
Proof.
  apply (missing_source_stops_convert fresh_nan [] [lit "a.txt"] (lit "gone.txt")).
  - reflexivity.
  - reflexivity.
  - reflexivity.
Defined.

(** X15. After a round that succeeds on a text which declares fewer than
    200,000,000 samples, the destination file can be read by
    [WFMFile.read_data]: it holds as many samples as the text declares, each
    the value of the text rounded to binary32, and the clock rate of the text
    as its clock text. *)
Theorem converted_file_reads_back
  (fresh : memory) (fname txt r : bytes) (st st' : Converter.state)
  (clock : float) (size : Z) (data : list float) :
  Converter.convert_one fresh fname st = (Ok tt, st') ->
  Converter.lookup fname (Converter.files st) = Some txt ->
  PulseTxtFile.read_data fresh txt = Ok ((clock, size, data), r) ->
  0 <= size < 200000000 ->
  exists out rounded,
    Converter.lookup (Converter.new_file_name fname) (Converter.files st') = Some out
    /\ WFMFile.read_data out = Ok ((rounded, format_e10 clock), [])
    /\ len rounded = size
    /\ Forall2 (fun x y => round32 x = Ok y) data rounded.
Proof.
  intros H L R Hsize.
  destruct (convert_one_ok _ _ _ _ H) as (txt' & c' & s' & d' & r' & L' & R' & W & F).
  rewrite L in L'. injection L' as <-. rewrite R in R'.
  injection R' as <- <- <- <-.
  pose proof (text_read_len _ _ _ _ _ _ R ltac:(lia)) as Hlen.
  destruct (packable_words data (write_data_packable data clock W)) as [ws Hws].
  rewrite (write_data_ok data clock ws Hws) in F. cbn [snd] in F.
  exists (layout WFMFile.header (5 * len data) (map record_of ws) (trailer clock)).
  exists (map bits32_to_float ws).
  split; [rewrite F; apply lookup_store|].
  split; [apply read_written_words; [exact Hws|lia]|].
  split.
  - rewrite len_map. unfold len in *. rewrite <- (Forall2_length Hws). exact Hlen.
  - clear -Hws. induction Hws as [|x w data ws Hw _ IH]; cbn [map]; constructor.
    + unfold round32. now rewrite Hw.
    + exact IH.
Qed.

Lemma converted_file_reads_back_witness :
  exists out rounded,
    Converter.lookup (Converter.new_file_name (lit "a.csv"))
      (Converter.files (snd (Converter.convert_one fresh_nan (lit "a.csv") twin_dir)))
    = Some out
    /\ WFMFile.read_data out
       = Ok ((rounded, format_e10 (S754_finite false 8388608000000000 (-23))), [])
    /\ len rounded = 1
    /\ Forall2 (fun x y => round32 x = Ok y)
         [S754_finite false 4503599627370496 (-53)] rounded.
Proof.
  apply (converted_file_reads_back fresh_nan (lit "a.csv") (text_of "0.5") [] twin_dir
           (snd (Converter.convert_one fresh_nan (lit "a.csv") twin_dir))
           (S754_finite false 8388608000000000 (-23)) 1
           [S754_finite false 4503599627370496 (-53)]).
  - vm_compute. reflexivity.
  - reflexivity.
  - vm_compute. reflexivity.
  - split; [discriminate|reflexivity].
Defined.

(** ** The status text *)
Section Status.

Import Converter.

Lemma convert_loop_status (fresh : memory) (names : list bytes) : forall st st',
  convert_loop fresh names st = (Ok tt, st') ->
  statusText st' = statusText st ++ concat (map created_line names)
  /\ selected st' = selected st
  /\ choices st' = choices st
  /\ homeDir st' = homeDir st.
Proof.
  induction names as [|f names IH]; intros st st' H.
  - cbn [convert_loop] in H. injection H as <-. cbn [map concat].
    now rewrite app_nil_r.
  - cbn [convert_loop] in H.
    destruct (convert_one_inv fresh f st)
      as [[_ E]|[(txt & e & _ & _ & E)|(txt & c & sz & d & r & w & out & _ & _ & _ & E)]];
      rewrite E in H; try discriminate H.
    destruct w as [u|e|]; try discriminate H.
    apply IH in H as (H1 & H2 & H3 & H4).
    cbn [statusText selected choices homeDir _feedback set_files] in H1, H2, H3, H4.
    split; [|split; [|split]; assumption].
    rewrite H1. cbn [map concat]. unfold created_line.
    rewrite <- !app_assoc. reflexivity.
Qed.

End Status.

(** X16. When [convert] succeeds, the status text has grown by one line
    [Created <destination>] for each selected name, in the order of the
    selection, and by the line of the reload, which counts the choices; the
    selection and [homeDir] are as they were. The choices are then the names
    that do not start with a dot in the directory that [homeDir] names: in
    the working directory, with the new files among them, when [homeDir]
    names it, and in the other directory, where [convert] has written
    nothing, when it names another one. When [homeDir] cannot be listed the
    choices are as they were, and the line of the reload counts them. *)
Theorem convert_reports_each_file (fresh : memory) (st st' : Converter.state) :
  Converter.convert fresh st = (Ok tt, st') ->
  Converter.statusText st'
  = Converter.statusText st
    ++ concat (map created_line (Converter.selected st))
    ++ reloaded_line (len (Converter.choices st'))
  /\ Converter.selected st' = Converter.selected st
  /\ Converter.homeDir st' = Converter.homeDir st
  /\ Converter.choices st'
     = match Converter.homeDir st with
       | Converter.working_dir => filter visible (map fst (Converter.files st'))
       | Converter.other_dir entries => filter visible entries
       | Converter.no_dir => Converter.choices st
       end.
Proof.
  unfold Converter.convert. intros H.
  destruct (Converter.convert_loop fresh (Converter.selected st) st)
    as [[u|e|] st1] eqn:L; try discriminate H.
  injection H as <-. destruct u.
  apply convert_loop_status in L as (H1 & H2 & H3 & H4).
  unfold Converter._fire_reload_fired, Converter._update_choices, Converter.listdir.
  rewrite H4.
  destruct (Converter.homeDir st) as [|entries|] eqn:Hd;
    cbn [Converter._feedback Converter.statusText Converter.choices
         Converter.selected Converter.files Converter.homeDir];
    (split; [rewrite H1; unfold reloaded_line; rewrite <- !app_assoc; reflexivity|]);
    (split; [exact H2|]); (split; [congruence|]);
    solve [reflexivity | exact H3].
Qed.

Lemma convert_reports_each_file_witness :
  Converter.statusText (snd (Converter.convert fresh_nan twin_dir))
  = Converter.statusText twin_dir
    ++ concat (map created_line (Converter.selected twin_dir))
    ++ reloaded_line (len (Converter.choices (snd (Converter.convert fresh_nan twin_dir))))
  /\ Converter.selected (snd (Converter.convert fresh_nan twin_dir))
     = Converter.selected twin_dir
  /\ Converter.homeDir (snd (Converter.convert fresh_nan twin_dir))
     = Converter.homeDir twin_dir
  /\ Converter.choices (snd (Converter.convert fresh_nan twin_dir))
     = filter visible (map fst (Converter.files (snd (Converter.convert fresh_nan twin_dir)))).
Proof.
  apply (convert_reports_each_file fresh_nan twin_dir
           (snd (Converter.convert fresh_nan twin_dir))).
  vm_compute. reflexivity.
Defined.

(** X17. When a text holds a sample beyond the range of binary32, the
    round of the loop raises [OverflowError] after the destination has been
    opened: the destination is left with the header, the length field for
    all samples and the records of the samples before the failing one, and no
    line is added to the status text. *)
Theorem write_failure_leaves_partial_file
  (fresh : memory) (fname txt r : bytes) (st : Converter.state)
  (clock : float) (size : Z) (pre post : list float) (x : float)
  (ws : list Z) (e : exn) :
  Converter.lookup fname (Converter.files st) = Some txt ->
  PulseTxtFile.read_data fresh txt = Ok ((clock, size, pre ++ x :: post), r) ->
  Forall2 (fun y w => float_to_bits32 y = Ok w) pre ws ->
  float_to_bits32 x = Raise e ->
  Converter.convert_one fresh fname st
  = (Raise OverflowError,
     Converter.set_files
       (Converter.store (Converter.new_file_name fname)
          (WFMFile.header ++ length_field (5 * len (pre ++ x :: post))
             ++ concat (map record_of ws))
          (Converter.files st)) st).
Proof.
  intros L R Hws Hx. pose proof (float_to_bits32_error x e Hx) as ->.
  assert (W : WFMFile.write_data (pre ++ x :: post) clock []
              = (Raise OverflowError,
                 WFMFile.header ++ length_field (5 * len (pre ++ x :: post))
                   ++ concat (map record_of ws))).
  { unfold WFMFile.write_data, length_field.
    unfold wseq at 1. unfold write at 1. cbn [app].
    unfold wseq at 1. unfold write at 1.
    unfold wseq. rewrite (write_items_raise pre ws x post _ OverflowError) by assumption.
    f_equal; rewrite <- ?app_assoc; cbn [app]; rewrite <- ?app_assoc; reflexivity. }
  unfold Converter.convert_one. rewrite L, R, W.
  cbn [Converter.files Converter.set_files Converter.choices Converter.selected
       Converter.statusText].
  rewrite store_store. reflexivity.
Qed.

Lemma write_failure_leaves_partial_file_witness :
  Converter.convert_one fresh_nan (lit "big.txt") overflow_dir
  = (Raise OverflowError,
     Converter.set_files
       (Converter.store (Converter.new_file_name (lit "big.txt"))
          (WFMFile.header ++ length_field (5 * len ([one] ++ huge :: []))
             ++ concat (map record_of [1065353216]))
          (Converter.files overflow_dir)) overflow_dir).
Proof.
  apply (write_failure_leaves_partial_file fresh_nan (lit "big.txt")
           (lit "#clock=1e9" ++ [CR; LF] ++ lit "#size=2" ++ [CR; LF]
            ++ lit "1.0" ++ [CR; LF] ++ lit "1e39" ++ [CR; LF])
           [] overflow_dir (S754_finite false 8388608000000000 (-23)) 2
           [one] [] huge [1065353216] OverflowError).
  - reflexivity.
  - vm_compute. reflexivity.
  - repeat constructor.
  - vm_compute. reflexivity.
Defined.

(** X18. A name of at most four characters has the destination [.wfm],
    whatever the name is; this name starts with a dot, so that a reload that
    can list the directory never shows the file written. A reload that
    cannot list it leaves the choices as they were. *)
Theorem short_name_destination_hidden (fname : bytes) (st : Converter.state) :
  (length fname <= 4)%nat ->
  Converter.new_file_name fname = lit ".wfm"
  /\ match Converter.listdir st with
     | Ok _ => ~ In (Converter.new_file_name fname)
                    (Converter.choices (Converter._fire_reload_fired st))
     | _ => Converter.choices (Converter._fire_reload_fired st) = Converter.choices st
     end.
Proof.
  intros H.
  assert (E : Converter.new_file_name fname = lit ".wfm").
  { unfold Converter.new_file_name.
    replace (length fname - 4)%nat with 0%nat by lia. reflexivity. }
  split; [exact E|]. rewrite E.
  unfold Converter._fire_reload_fired, Converter._update_choices.
  destruct (Converter.listdir st) as [listing|e|];
    cbn [Converter._feedback Converter.choices]; try reflexivity.
  rewrite filter_In. intros [_ Hv]. discriminate Hv.
Qed.

Lemma short_name_destination_hidden_witness :
  Converter.new_file_name (lit "a.b") = lit ".wfm"
  /\ ~ In (Converter.new_file_name (lit "a.b"))
         (Converter.choices (Converter._fire_reload_fired twin_dir)).
Proof.
  apply (short_name_destination_hidden (lit "a.b") twin_dir).
  vm_compute. repeat constructor.
Defined.

(** ** A source that ends in [.wfm] *)
Section SameName.

Lemma span_line_magic (rest : bytes) :
  span_line (WFMFile.header ++ rest) = (WFMFile.header, rest).
Proof.
  reflexivity.
Qed.

Lemma text_read_of_waveform (fresh : memory) (nb : Z) (recs : list bytes)
  (tail : bytes) :
  PulseTxtFile.read_data fresh (layout WFMFile.header nb recs tail) = Raise IndexError.
Proof.
  rewrite text_read_unfold. unfold layout. rewrite span_line_magic. cbn [fst].
  rewrite field_absent; [reflexivity|].
  vm_compute. intuition discriminate.
Qed.

End SameName.

(** X19. When the selected name itself ends in [.wfm], the destination is
    the source: a successful round replaces the text by the waveform file,
    and a second round on the same name raises [IndexError], the file being
    no text any more. *)
Theorem wfm_source_overwritten
  (fresh : memory) (root : bytes) (st st' : Converter.state) :
  Converter.convert_one fresh (root ++ lit ".wfm") st = (Ok tt, st') ->
  Converter.new_file_name (root ++ lit ".wfm") = root ++ lit ".wfm"
  /\ (exists txt clock size data r,
        Converter.lookup (root ++ lit ".wfm") (Converter.files st) = Some txt
        /\ PulseTxtFile.read_data fresh txt = Ok ((clock, size, data), r)
        /\ Converter.lookup (root ++ lit ".wfm") (Converter.files st')
           = Some (snd (WFMFile.write_data data clock [])))
  /\ Converter.convert_one fresh (root ++ lit ".wfm") st' = (Raise IndexError, st').
Proof.
  intros H.
  assert (E : Converter.new_file_name (root ++ lit ".wfm") = root ++ lit ".wfm")
    by (now apply new_file_name_ext).
  split; [exact E|].
  destruct (convert_one_ok _ _ _ _ H) as (txt & c & sz & d & r & L & R & W & F).
  rewrite E in F.
  assert (L' : Converter.lookup (root ++ lit ".wfm") (Converter.files st')
               = Some (snd (WFMFile.write_data d c []))).
  { rewrite F. apply lookup_store. }
  split; [now exists txt, c, sz, d, r|].
  destruct (packable_words d (write_data_packable d c W)) as [ws Hws].
  rewrite (write_data_ok d c ws Hws) in L'. cbn [snd] in L'.
  unfold Converter.convert_one. rewrite L', text_read_of_waveform. reflexivity.
Qed.

Lemma wfm_source_overwritten_witness :
  Converter.new_file_name (lit "a" ++ lit ".wfm") = lit "a" ++ lit ".wfm"
  /\ (exists txt clock size data r,
        Converter.lookup (lit "a" ++ lit ".wfm")
          (Converter.files (Converter.mk_state [(lit "a.wfm", text_of "1.0")] Converter.working_dir [] [] []))
        = Some txt
        /\ PulseTxtFile.read_data fresh_nan txt = Ok ((clock, size, data), r)
        /\ Converter.lookup (lit "a" ++ lit ".wfm")
             (Converter.files
                (snd (Converter.convert_one fresh_nan (lit "a" ++ lit ".wfm")
                        (Converter.mk_state [(lit "a.wfm", text_of "1.0")] Converter.working_dir [] [] []))))
           = Some (snd (WFMFile.write_data data clock [])))
  /\ Converter.convert_one fresh_nan (lit "a" ++ lit ".wfm")
       (snd (Converter.convert_one fresh_nan (lit "a" ++ lit ".wfm")
               (Converter.mk_state [(lit "a.wfm", text_of "1.0")] Converter.working_dir [] [] [])))
     = (Raise IndexError,
        snd (Converter.convert_one fresh_nan (lit "a" ++ lit ".wfm")
               (Converter.mk_state [(lit "a.wfm", text_of "1.0")] Converter.working_dir [] [] []))).
Proof.
  apply (wfm_source_overwritten fresh_nan (lit "a")
           (Converter.mk_state [(lit "a.wfm", text_of "1.0")] Converter.working_dir [] [] [])).
  vm_compute. reflexivity.
Defined.

(** X20. The loop of [read_data] ends on every input: the counter grows by
    5 in each round, so that [read_data] returns a result or raises an
    exception, whatever byte count the file declares. *)
Theorem read_data_terminates (s : bytes) :
  (exists data clock rest, WFMFile.read_data s = Ok ((data, clock), rest))
  \/ (exists e, WFMFile.read_data s = Raise e).
Proof.
  pose proof (read_data_no_fuel s) as H.
  destruct (WFMFile.read_data s) as [[[data clock] rest]|e|].
  - left. now exists data, clock, rest.
  - right. now exists e.
  - contradiction.
Qed.

(** ** Binary32 patterns read and written back *)
Section Patterns.

Lemma iter_pos_nat {A} (f : A -> A) (p : positive) : forall x,
  iter_pos f p x = Nat.iter (Pos.to_nat p) f x.
Proof.
  induction p as [p IH|p IH|]; intros x; cbn [iter_pos].
  - rewrite !IH, Pos2Nat.inj_xI.
    replace (S (2 * Pos.to_nat p)) with (Pos.to_nat p + (Pos.to_nat p + 1))%nat by lia.
    rewrite !Nat.iter_add. reflexivity.
  - rewrite !IH, Pos2Nat.inj_xO.
    replace (2 * Pos.to_nat p)%nat with (Pos.to_nat p + Pos.to_nat p)%nat by lia.
    rewrite Nat.iter_add. reflexivity.
  - reflexivity.
Qed.

Lemma pos_iter_nat {A} (f : A -> A) (p : positive) (x : A) :
  Pos.iter f x p = Nat.iter (Pos.to_nat p) f x.
Proof.
  rewrite Pos2Nat.inj_iter. reflexivity.
Qed.

Lemma shr_shl (n : nat) : forall m,
  Nat.iter n shr_1 (Build_shr_record (Zpos (Nat.iter n xO m)) false false)
  = Build_shr_record (Zpos m) false false.
Proof.
  induction n as [|n IH]; intros m; [reflexivity|].
  rewrite Nat.iter_succ_r. cbn [Nat.iter nat_rect].
  change (shr_1 {| shr_m := Z.pos (xO ?p); shr_r := false; shr_s := false |})
    with {| shr_m := Z.pos p; shr_r := false; shr_s := false |}.
  fold (Nat.iter n xO m). apply IH.
Qed.

Lemma digits_shl (n : nat) : forall m,
  Zpos (digits2_pos (Nat.iter n xO m)) = Zpos (digits2_pos m) + Z.of_nat n.
Proof.
  induction n as [|n IH]; intros m; [simpl; lia|].
  cbn [Nat.iter nat_rect]. fold (Nat.iter n xO m). cbn [digits2_pos].
  rewrite Pos2Z.inj_succ, IH. lia.
Qed.

Lemma round_aux_exact (prec emax : Z) (sx : bool) (m : positive) (k : nat) (E : Z) :
  fexp prec emax (Zpos (digits2_pos m) + Z.of_nat k + E) = E + Z.of_nat k ->
  E + Z.of_nat k <= emax - prec ->
  binary_round_aux prec emax sx (Zpos (Nat.iter k xO m)) E loc_Exact
  = S754_finite sx m (E + Z.of_nat k).
Proof.
  intros Hf Hmax. unfold binary_round_aux, shr_fexp.
  cbn [Zdigits2 shr_record_of_loc]. rewrite digits_shl, Hf.
  replace (E + Z.of_nat k - E) with (Z.of_nat k) by lia.
  assert (Hshr : shr {| shr_m := Z.pos (Nat.iter k xO m); shr_r := false; shr_s := false |}
                   E (Z.of_nat k)
                 = ({| shr_m := Z.pos m; shr_r := false; shr_s := false |}, E + Z.of_nat k)).
  { destruct k as [|k].
    - cbn [Z.of_nat shr Nat.iter nat_rect]. f_equal. lia.
    - unfold shr. cbn [Z.of_nat]. rewrite iter_pos_nat, SuccNat2Pos.id_succ.
      now rewrite shr_shl. }
  rewrite Hshr. cbn [shr_m loc_of_shr_record round_nearest_even Zdigits2 shr_record_of_loc].
  replace (Z.pos (digits2_pos m) + (E + Z.of_nat k))
    with (Z.pos (digits2_pos m) + Z.of_nat k + E) by lia.
  rewrite Hf, Z.sub_diag. cbn [shr shr_m].
  destruct (Z.leb_spec (E + Z.of_nat k) (emax - prec)); [reflexivity|lia].
Qed.

Lemma b64_exact (s : bool) (m : positive) (e : Z) (d : nat) :
  Zpos (digits2_pos m) + Z.of_nat d = 53 -> (0 < d)%nat ->
  - 1074 <= e - Z.of_nat d <= 971 ->
  b64 s (Zpos m) e = S754_finite s (Nat.iter d xO m) (e - Z.of_nat d).
Proof.
  intros Hd Hpos He.
  assert (R : binary_round 53 1024 s m e
              = S754_finite s (Nat.iter d xO m) (e - Z.of_nat d)).
  { unfold binary_round.
    assert (Hf : fexp 53 1024 (Z.pos (digits2_pos m) + e) = e - Z.of_nat d)
      by (unfold fexp, emin; lia).
    rewrite Hf. unfold shl_align.
    destruct (e - Z.of_nat d - e) as [|p|p] eqn:Ep; try lia.
    rewrite pos_iter_nat. replace (Pos.to_nat p) with d by lia.
    pose proof (round_aux_exact 53 1024 s (Nat.iter d xO m) 0 (e - Z.of_nat d)) as H.
    cbn [Nat.iter nat_rect Z.of_nat] in H. rewrite !Z.add_0_r in H.
    apply H; [|lia]. rewrite digits_shl. unfold fexp, emin. lia. }
  unfold b64, binary_normalize. destruct s; cbn [cond_Zopp Z.opp]; exact R.
Qed.

Lemma narrow_exact (s : bool) (m : positive) (e : Z) (d : nat) :
  fexp 24 128 (Zpos (digits2_pos m) + e) = e -> e <= 104 -> (0 < d)%nat ->
  binary_normalize 24 128 (cond_Zopp s (Zpos (Nat.iter d xO m))) (e - Z.of_nat d) s
  = S754_finite s m e.
Proof.
  intros Hf He Hpos.
  assert (R : binary_round 24 128 s (Nat.iter d xO m) (e - Z.of_nat d)
              = S754_finite s m e).
  { unfold binary_round. rewrite digits_shl.
    replace (Z.pos (digits2_pos m) + Z.of_nat d + (e - Z.of_nat d))
      with (Z.pos (digits2_pos m) + e) by lia.
    rewrite Hf. unfold shl_align.
    destruct (e - (e - Z.of_nat d)) as [|p|p] eqn:Ep; try lia.
    rewrite (round_aux_exact 24 128 s m d (e - Z.of_nat d)).
    - f_equal. lia.
    - replace (Z.pos (digits2_pos m) + Z.of_nat d + (e - Z.of_nat d))
        with (Z.pos (digits2_pos m) + e) by lia.
      rewrite Hf. lia.
    - lia. }
  unfold binary_normalize. destruct s; cbn [cond_Zopp Z.opp]; exact R.
Qed.

Lemma digits2_log2 (p : positive) : Zpos (digits2_pos p) = Z.log2 (Zpos p) + 1.
Proof.
  assert (S : forall q, digits2_pos q = Pos.size q)
    by (induction q; cbn [digits2_pos Pos.size]; congruence).
  destruct p; cbn [digits2_pos Z.log2]; rewrite ?S; lia.
Qed.

Lemma bits_decompose (w : Z) :
  0 <= w < 2 ^ 32 ->
  w = sign_bit (Z.testbit w 31) + ((w / 2 ^ 23) mod 256) * 2 ^ 23 + w mod 2 ^ 23.
Proof.
  intros Hw. change (2 ^ 32) with 4294967296 in Hw. change (2 ^ 23) with 8388608.
  pose proof (Z.div_mod w 8388608 ltac:(lia)) as E1.
  pose proof (Z.mod_pos_bound w 8388608 ltac:(lia)) as B1.
  pose proof (Z.div_mod (w / 8388608) 256 ltac:(lia)) as E2.
  pose proof (Z.mod_pos_bound (w / 8388608) 256 ltac:(lia)) as B2.
  assert (E3 : w / 8388608 / 256 = w / 2147483648) by (rewrite Z.div_div by lia; reflexivity).
  assert (B3 : 0 <= w / 2147483648 < 2).
  { split; [apply Z.div_pos; lia|apply Z.div_lt_upper_bound; lia]. }
  assert (S : sign_bit (Z.testbit w 31) = (w / 2147483648) * 2147483648).
  { unfold sign_bit. change (2 ^ 31) with 2147483648.
    destruct (Z.testbit w 31) eqn:T.
    - apply Z.testbit_true in T; [|lia]. change (2 ^ 31) with 2147483648 in T.
      rewrite Z.mod_small in T by lia. lia.
    - apply Z.testbit_false in T; [|lia]. change (2 ^ 31) with 2147483648 in T.
      rewrite Z.mod_small in T by lia. lia. }
  lia.
Qed.

Lemma bits_roundtrip (w : Z) :
  0 <= w < 2 ^ 32 -> bits32_to_float w <> S754_nan ->
  float_to_bits32 (bits32_to_float w) = Ok w.
Proof.
  intros Hw Hnan. pose proof (bits_decompose w Hw) as D.
  unfold bits32_to_float in *.
  set (s := Z.testbit w 31) in *. set (ex := (w / 2 ^ 23) mod 256) in *.
  set (fr := w mod 2 ^ 23) in *.
  assert (Bex : 0 <= ex < 256) by (apply Z.mod_pos_bound; lia).
  assert (Bfr : 0 <= fr < 8388608) by (apply Z.mod_pos_bound; reflexivity).
  change (2 ^ 23) with 8388608 in *.
  destruct (Z.eqb_spec ex 255) as [E255|N255].
  - destruct (Z.eqb_spec fr 0) as [F0|F0]; [|contradiction].
    cbn [float_to_bits32]. f_equal. change (2 ^ 23) with 8388608. lia.
  - destruct (Z.eqb_spec ex 0) as [E0|N0].
    + destruct (Z.eqb_spec fr 0) as [F0|F0].
      * cbn [float_to_bits32]. f_equal. lia.
      * destruct fr as [|m|m] eqn:Efr; try lia.
        pose proof (digits2_log2 m) as Hdig.
        assert (Hl : Z.log2 (Z.pos m) < 23) by (apply Z.log2_lt_pow2; lia).
        pose proof (Z.log2_nonneg (Z.pos m)).
        set (d := Z.to_nat (53 - Z.pos (digits2_pos m))).
        rewrite (b64_exact s m (-149) d) by (unfold d; lia).
        cbn [float_to_bits32].
        rewrite (narrow_exact s m (-149) d) by (unfold fexp, emin, d; lia).
        change (2 ^ 23) with 8388608.
        destruct (Z.leb_spec 8388608 (Z.pos m)); [lia|].
        f_equal. rewrite Z.mod_small by lia. lia.
    + destruct (8388608 + fr) as [|m|m] eqn:Em; try lia.
      pose proof (digits2_log2 m) as Hdig.
      assert (Hl : Z.log2 (Z.pos m) = 23).
      { apply Z.log2_unique; [lia|]. change (2 ^ 23) with 8388608.
        change (2 ^ Z.succ 23) with 16777216. lia. }
      rewrite (b64_exact s m (ex - 150) 29) by lia.
      cbn [float_to_bits32].
      rewrite (narrow_exact s m (ex - 150) 29) by (unfold fexp, emin; lia).
      change (2 ^ 23) with 8388608.
      destruct (Z.leb_spec 8388608 (Z.pos m)); [|lia].
      f_equal. replace (ex - 150 + 150) with ex by lia.
      rewrite (Z.mod_small ex) by lia.
      replace (Z.pos m mod 8388608) with fr; [lia|].
      rewrite <- Em. rewrite <- (Z.mod_small fr 8388608) at 1 by lia.
      rewrite <- (Z.add_mod_idemp_l 8388608), Z.mod_same by lia. reflexivity.
Qed.

Lemma le_word_range (b : bytes) : 0 <= le_word b < 256 ^ Z.of_nat (length b).
Proof.
  induction b as [|c b IH].
  - simpl. lia.
  - cbn [le_word length]. rewrite Nat2Z.inj_succ, Z.pow_succ_r by lia.
    pose proof (ord_range c). lia.
Qed.

Lemma le_bytes_le_word (b : bytes) : le_bytes (length b) (le_word b) = b.
Proof.
  induction b as [|c b IH]; [reflexivity|].
  cbn [le_word length le_bytes]. pose proof (ord_range c) as Hc.
  f_equal.
  - apply ord_inj. rewrite ord_chr.
    rewrite (Z.mul_comm 256), Z.mod_add by lia. apply Z.mod_small. exact Hc.
  - rewrite (Z.mul_comm 256), Z.div_add by lia.
    rewrite (Z.div_small (ord c)) by exact Hc. exact IH.
Qed.

End Patterns.

(** X21. A waveform file whose records hold no NaN is read to samples
    that binary32 holds exactly, and writing these samples gives back the
    four amplitude bytes of every record, each followed by the marker byte 0:
    reading and writing again loses nothing but the markers. *)
Theorem reencode_preserves_amplitudes
  (h : bytes) (recs : list bytes) (tail c : bytes) (clock : float) :
  length h = 12%nat ->
  5 * len recs < 10 ^ 9 ->
  Forall (fun r => length r = 5%nat /\ sample_of r <> S754_nan) recs ->
  item (split tail) 1 = Ok c ->
  WFMFile.read_data (layout h (5 * len recs) recs tail)
  = Ok ((map sample_of recs, c), [])
  /\ Forall f32_exact (map sample_of recs)
  /\ WFMFile.write_data (map sample_of recs) clock []
     = (Ok tt, layout WFMFile.header (5 * len recs) (map zero_marker recs)
                 (trailer clock)).
Proof.
  intros Hh Hlen Hrecs Hc.
  assert (H5 : Forall (fun r => length r = 5%nat) recs)
    by (eapply Forall_impl; [|exact Hrecs]; now intros r [H _]).
  assert (Hw : forall r, length r = 5%nat -> sample_of r <> S754_nan ->
                 float_to_bits32 (sample_of r) = Ok (le_word (firstn 4 r))).
  { intros r Hr Hn. unfold sample_of in *. apply bits_roundtrip; [|exact Hn].
    pose proof (le_word_range (firstn 4 r)) as R.
    rewrite length_firstn, Hr in R. exact R. }
  pose proof (len_nonneg recs).
  split; [|split].
  - rewrite read_data_layout, Hc; try assumption; try lia. reflexivity.
  - apply Forall_map. eapply Forall_impl; [|exact Hrecs].
    intros r [Hr Hn]. split; [exact Hn|].
    exists (le_word (firstn 4 r)). split; [now apply Hw|reflexivity].
  - rewrite (write_data_ok _ clock (map (fun r => le_word (firstn 4 r)) recs)).
    + rewrite len_map, map_map. do 2 f_equal.
      apply map_ext_Forall. eapply Forall_impl; [|exact H5].
      intros r Hr. cbv beta in Hr. unfold record_of, zero_marker. f_equal.
      assert (E4 : length (firstn 4 r) = 4%nat) by (rewrite length_firstn; lia).
      rewrite <- E4 at 1. apply le_bytes_le_word.
    + clear -Hrecs Hw. induction Hrecs as [|r recs [Hr Hn] _ IH]; cbn [map];
        constructor; [now apply Hw|exact IH].
Qed.

Lemma reencode_preserves_amplitudes_witness :
  WFMFile.read_data
    (layout WFMFile.header (5 * len [le_bytes 4 1065353216 ++ [chr 3]])
       [le_bytes 4 1065353216 ++ [chr 3]] (trailer one))
  = Ok ((map sample_of [le_bytes 4 1065353216 ++ [chr 3]], format_e10 one), [])
  /\ Forall f32_exact (map sample_of [le_bytes 4 1065353216 ++ [chr 3]])
  /\ WFMFile.write_data (map sample_of [le_bytes 4 1065353216 ++ [chr 3]]) one []
     = (Ok tt, layout WFMFile.header (5 * len [le_bytes 4 1065353216 ++ [chr 3]])
                 (map zero_marker [le_bytes 4 1065353216 ++ [chr 3]]) (trailer one)).
Proof.
  apply (reencode_preserves_amplitudes WFMFile.header
           [le_bytes 4 1065353216 ++ [chr 3]] (trailer one) (format_e10 one) one).
  - reflexivity.
  - reflexivity.
  - repeat constructor. vm_compute. discriminate.
  - vm_compute. reflexivity.
Defined.
